(** * nodequiz: user and authentication utilities (utils/user.js)

    A shallow embedding of [utils/user.js].  The module is written in
    continuation-passing style over asynchronous services (a MongoDB
    document store through mongoose, an LDAP directory, a password
    hashing helper, a mailer).  Here every asynchronous call is a step
    of a state-and-exception monad over an explicit [World]; the
    arguments a function hands to its callback [fn] are the value the
    monadic computation returns, and a [throw] inside a callback ends the
    computation with [Thrown] while keeping the writes done so far.

    Parts of the repository that the module only calls ([config],
    [models], [pass], [mail], [ldapauth-fork]) are taken as parameters:
    the record [Config] for the constants, the record [Services] for the
    outcomes of the helpers, and the fault list of the [World] for the
    errors of the document store.

    Idealisations, stated once:
    - strings are ASCII strings, and [toLowerCase] maps [A-Z] only;
    - a date is its time value, an integer number of milliseconds; the
      arithmetic of [validateResetKey] on dates is done on JavaScript
      numbers, that is on binary64 floats;
    - one operation runs at a time (no interleaving of requests). *)

From Stdlib Require Import String Ascii List ZArith Bool Arith Floats Lia.
From Stdlib Require Uint63.
Import ListNotations.

Local Open Scope string_scope.
Local Open Scope nat_scope.

(** ** JavaScript values the module handles *)

(** A JavaScript [Error] object: the module reads [name] and [message]. *)
Record Error := mkError { err_name : string; err_message : string }.

(** [new Error(msg)] *)
Definition new_Error (msg : string) : Error :=
  {| err_name := "Error"; err_message := msg |}.

Definition lower_ascii (c : ascii) : ascii :=
  let n := nat_of_ascii c in
  if (65 <=? n) && (n <=? 90) then ascii_of_nat (n + 32) else c.

(** [String.prototype.toLowerCase], on ASCII. *)
Fixpoint toLowerCase (s : string) : string :=
  match s with
  | EmptyString => EmptyString
  | String c r => String (lower_ascii c) (toLowerCase r)
  end.

(** Truthiness of an object-or-null value. *)
Definition truthy {A : Type} (o : option A) : bool :=
  match o with Some _ => true | None => false end.

(** Truthiness of a string-or-undefined value: the empty string is
    falsy, like [undefined]. *)
Definition truthy_string (o : option string) : bool :=
  match o with
  | Some (String _ _) => true
  | Some EmptyString | None => false
  end.

(** [err && err.name === s] *)
Definition err_name_is (err : option Error) (s : string) : bool :=
  match err with
  | Some e => String.eqb (err_name e) s
  | None => false
  end.

(** The time value of a date as a JavaScript number.  Time values lie
    within 8.64e15 of zero, where the conversion is exact. *)
Definition js_number (z : Z) : float :=
  if (z <? 0)%Z then PrimFloat.opp (PrimFloat.of_uint63 (Uint63.of_Z (- z)))
  else PrimFloat.of_uint63 (Uint63.of_Z z).

(** ** Documents of the three collections *)

(** MongoDB ObjectIDs. *)
Definition ObjectId := nat.

Record User := mkUser {
  _id : ObjectId;
  username : string;
  activated : bool;
  salt : string;
  hash : string;
  security_question : string;
  security_answer : string;
  last_seen : option Z
}.

Record PasswordReset := mkPasswordReset {
  pr_id : ObjectId;                   (* _id *)
  reset_key : option string;
  user_id : option ObjectId;
  date : Z;
  used : bool
}.

Record Feedback := mkFeedback {
  fb_id : ObjectId;                   (* _id *)
  fb_user_id : option ObjectId;       (* user_id *)
  feedback_data : string;
  fb_date : Z                         (* date *)
}.

(** ** Configuration ([config/config.js], not part of this module) *)

Record Config := mkConfig {
  AUTH_USE_LDAP : bool;
  AUTH_LDAP_URL : string;             (* AUTH_LDAP_CONFIG.url *)
  RESET_VALIDITY : float;             (* hours *)
  ERR_AUTH_LDAP_SERVER_DOWN : string;
  ERR_AUTH_FAILED : string;
  ERR_AUTH_LDAP_ERROR : string;
  ERR_AUTH_INVALID_USERNAME : string;
  ERR_AUTH_ACTIVATION_PENDING : string;
  ERR_AUTH_INVALID_PASSWORD : string;
  ERR_AUTH_NOT_LOGGED_IN : string;
  ERR_SIGNUP_ALREADY_EXISTS : string;
  ERR_ACTIVATION_INVALID_KEY : string;
  ERR_RESET_INVALID_DETAILS : string;
  URL_LOGIN : string;                 (* URL.LOGIN *)
  URL_SIGNUP : string;                (* URL.SIGNUP *)
  TEMPL_403 : string;
  (* schema defaults of [models.User] and [models.PasswordReset] *)
  User_defaults : User;
  PasswordReset_default_used : bool
}.

(** ** Helper services ([ldapauth-fork], [./pass]) *)

Record Services := mkServices {
  (* ldap.authenticate(name, pass, cb): the error or the LDAP entry *)
  ldap_bind : string -> string -> Error + string;
  (* crypt.hash(pass, salt, cb): the error or the hash *)
  hash_with_salt : string -> string -> Error + string;
  (* crypt.hash(pass, cb): the error or a fresh salt and the hash *)
  hash_fresh : string -> Error + (string * string);
  (* generateResetKey(user_id, cb) *)
  pass_generateResetKey : ObjectId -> option Error * option string;
  (* decryptResetKey(reset_key, cb) *)
  pass_decryptResetKey : string -> option Error * option ObjectId
}.

(** ** Observable effects *)

Inductive Collection := CUser | CPasswordReset | CFeedback.

Inductive DbOp := OpFindOne | OpCount | OpSave | OpUpdate | OpFindOneAndUpdate.

Inductive LogLevel := LInfo | LWarn | LError.

Inductive Event :=
| EvLdap (name pass : string)                 (* a bind request to the directory *)
| EvDb (c : Collection) (op : DbOp)           (* a request to the document store *)
| EvHash (pass salt : string)                 (* crypt.hash with a stored salt *)
| EvHashFresh (pass : string)                 (* crypt.hash with a new salt *)
| EvLog (l : LogLevel) (msg : string)         (* config.logger *)
| EvMail (domain ip user_cookie name : string) (key : option string)
                                              (* mailer.mailResetKey *)
| EvNext                                      (* next() *)
| EvSessionError (msg : string)               (* req.session.error = msg *)
| EvRedirect (url : string)
| EvStatus (code : nat)
| EvJson
| EvRender (templ : string).

(** ** The world an operation runs in *)

Record World := mkWorld {
  users : list User;
  resets : list PasswordReset;
  feedbacks : list Feedback;
  next_id : ObjectId;                 (* ObjectID generator *)
  clock : Z;                          (* what [new Date()] reads, in ms *)
  faults : list (option Error);       (* outcome of the coming store requests:
                                         [Some e] fails the request with [e] *)
  trace : list Event                  (* effects so far, oldest first *)
}.

Definition set_users (l : list User) (w : World) : World :=
  mkWorld l (resets w) (feedbacks w) (next_id w) (clock w) (faults w) (trace w).
Definition set_resets (l : list PasswordReset) (w : World) : World :=
  mkWorld (users w) l (feedbacks w) (next_id w) (clock w) (faults w) (trace w).
Definition set_next_id (n : ObjectId) (w : World) : World :=
  mkWorld (users w) (resets w) (feedbacks w) n (clock w) (faults w) (trace w).
Definition set_faults (f : list (option Error)) (w : World) : World :=
  mkWorld (users w) (resets w) (feedbacks w) (next_id w) (clock w) f (trace w).
Definition set_trace (t : list Event) (w : World) : World :=
  mkWorld (users w) (resets w) (feedbacks w) (next_id w) (clock w) (faults w) t.

(** ** The monad: state, plus exceptions that keep the state *)

Inductive Result (A : Type) : Type :=
| Returned (a : A)
| Thrown (e : Error).
Arguments Returned {A} a.
Arguments Thrown {A} e.

Definition Async (A : Type) : Type := World -> Result A * World.

Definition ret {A} (a : A) : Async A := fun w => (Returned a, w).

Definition bind {A B} (m : Async A) (k : A -> Async B) : Async B :=
  fun w =>
    match m w with
    | (Returned a, w') => k a w'
    | (Thrown e, w') => (Thrown e, w')
    end.

(** [throw e] inside a callback: nobody catches it. *)
Definition throw {A} (e : Error) : Async A := fun w => (Thrown e, w).

Declare Scope async_scope.
Delimit Scope async_scope with async.
Notation "x <- c ;; k" := (bind c (fun x => k))
  (at level 100, c at next level, right associativity) : async_scope.
Notation "' p <- c ;; k" := (bind c (fun x => match x with p => k end))
  (at level 100, p pattern, c at next level, right associativity) : async_scope.
Notation "c ;; k" := (bind c (fun _ => k))
  (at level 100, right associativity) : async_scope.
Local Open Scope async_scope.

Definition get_world : Async World := fun w => (Returned w, w).
Definition modify (f : World -> World) : Async unit := fun w => (Returned tt, f w).
Definition emit (e : Event) : Async unit :=
  modify (fun w => set_trace (trace w ++ [e]) w).

(** What a function hands to its callback: [fn(err, value)]. *)
Definition Reply (V : Type) : Type := (option Error * V)%type.
Definition callback {V} (err : option Error) (v : V) : Async (Reply V) := ret (err, v).

(** [new Date()] *)
Definition new_Date : Async Z := w <- get_world ;; ret (clock w).

(** A new ObjectID. *)
Definition new_ObjectId : Async ObjectId :=
  w <- get_world ;; modify (set_next_id (S (next_id w))) ;; ret (next_id w).

Definition logger (l : LogLevel) (msg : string) : Async unit := emit (EvLog l msg).

(** ** The document store *)

(** The store answers a request with [(err, result)].  A request whose
    fault is [Some e] answers [(Some e, None)] and changes nothing. *)
Definition next_fault : Async (option Error) :=
  w <- get_world ;;
  match faults w with
  | [] => ret None
  | f :: rest => modify (set_faults rest) ;; ret f
  end.

(** Replace the first document satisfying [q] by its image under [f]. *)
Fixpoint update_first {A} (q : A -> bool) (f : A -> A) (l : list A) : list A :=
  match l with
  | [] => []
  | x :: r => if q x then f x :: r else x :: update_first q f r
  end.

Definition User_findOne (q : User -> bool) : Async (option Error * option User) :=
  emit (EvDb CUser OpFindOne) ;;
  f <- next_fault ;;
  match f with
  | Some e => ret (Some e, None)
  | None => w <- get_world ;; ret (None, find q (users w))
  end.

Definition User_count (q : User -> bool) : Async (option Error * option nat) :=
  emit (EvDb CUser OpCount) ;;
  f <- next_fault ;;
  match f with
  | Some e => ret (Some e, None)
  | None => w <- get_world ;; ret (None, Some (length (filter q (users w))))
  end.

(** [doc.save(cb)] of a new document: appended to the collection. *)
Definition User_save (doc : User) : Async (option Error * option User) :=
  emit (EvDb CUser OpSave) ;;
  f <- next_fault ;;
  match f with
  | Some e => ret (Some e, None)
  | None => modify (fun w => set_users (users w ++ [doc]) w) ;; ret (None, Some doc)
  end.

(** [Model.update(q, upd, {multi: false}, cb)]: the first match is
    updated; the callback gets the number of documents affected. *)
Definition User_update (q : User -> bool) (upd : User -> User)
  : Async (option Error * option nat) :=
  emit (EvDb CUser OpUpdate) ;;
  f <- next_fault ;;
  match f with
  | Some e => ret (Some e, None)
  | None =>
      w <- get_world ;;
      modify (set_users (update_first q upd (users w))) ;;
      ret (None, Some (if existsb q (users w) then 1 else 0))
  end.

Definition PasswordReset_findOne (q : PasswordReset -> bool)
  : Async (option Error * option PasswordReset) :=
  emit (EvDb CPasswordReset OpFindOne) ;;
  f <- next_fault ;;
  match f with
  | Some e => ret (Some e, None)
  | None => w <- get_world ;; ret (None, find q (resets w))
  end.

Definition PasswordReset_save (doc : PasswordReset)
  : Async (option Error * option PasswordReset) :=
  emit (EvDb CPasswordReset OpSave) ;;
  f <- next_fault ;;
  match f with
  | Some e => ret (Some e, None)
  | None => modify (fun w => set_resets (resets w ++ [doc]) w) ;; ret (None, Some doc)
  end.

Definition PasswordReset_findOneAndUpdate (q : PasswordReset -> bool)
  (upd : PasswordReset -> PasswordReset)
  : Async (option Error * option PasswordReset) :=
  emit (EvDb CPasswordReset OpFindOneAndUpdate) ;;
  f <- next_fault ;;
  match f with
  | Some e => ret (Some e, None)
  | None =>
      w <- get_world ;;
      modify (set_resets (update_first q upd (resets w))) ;;
      ret (None, option_map upd (find q (resets w)))
  end.

Definition Feedback_count (q : Feedback -> bool) : Async (option Error * option nat) :=
  emit (EvDb CFeedback OpCount) ;;
  f <- next_fault ;;
  match f with
  | Some e => ret (Some e, None)
  | None => w <- get_world ;; ret (None, Some (length (filter q (feedbacks w))))
  end.

(** ** Queries the module builds *)

(** [{username: name}] *)
Definition by_username (name : string) (u : User) : bool :=
  String.eqb (username u) name.

(** [{_id: id}] *)
Definition by_id (id : ObjectId) (u : User) : bool := Nat.eqb (_id u) id.

(** [{_id: id}] where [id] may be undefined *)
Definition by_opt_id (id : option ObjectId) (u : User) : bool :=
  match id with Some i => Nat.eqb (_id u) i | None => false end.

(** [{_id: id, activated: false}] *)
Definition by_id_inactive (id : ObjectId) (u : User) : bool :=
  Nat.eqb (_id u) id && negb (activated u).

(** [{username: name, security_question: q, security_answer: a}] *)
Definition by_security (name q a : string) (u : User) : bool :=
  String.eqb (username u) name && String.eqb (security_question u) q
  && String.eqb (security_answer u) a.

(** [{reset_key: key}] *)
Definition by_reset_key (key : string) (p : PasswordReset) : bool :=
  match reset_key p with Some k => String.eqb k key | None => false end.

(** [{date: {$gte: last_seen}}] *)
Definition date_gte (last_seen : Z) (f : Feedback) : bool := (last_seen <=? fb_date f)%Z.

(** Updates the module writes. *)
Definition set_activated (b : bool) (u : User) : User :=
  mkUser (_id u) (username u) b (salt u) (hash u)
         (security_question u) (security_answer u) (last_seen u).

Definition set_salt_hash (s h : string) (u : User) : User :=
  mkUser (_id u) (username u) (activated u) s h
         (security_question u) (security_answer u) (last_seen u).

Definition set_used (b : bool) (p : PasswordReset) : PasswordReset :=
  mkPasswordReset (pr_id p) (reset_key p) (user_id p) (date p) b.

(** The part of an HTTP request the middleware reads. *)
Record Request := mkRequest {
  session_user : option string;       (* req.session.user *)
  session_is_admin : bool;            (* req.session.is_admin *)
  xhr : bool;                         (* req.xhr *)
  body_username : string              (* req.body.username *)
}.

(** [Math.abs(new Date() - reset_entry.date) / 36e5] *)
Definition time_diff (now d : Z) : float :=
  PrimFloat.div (PrimFloat.abs (PrimFloat.sub (js_number now) (js_number d))) 36e5%float.

(** The four answers of [validateResetKey]. *)
Definition status_used := "used".
Definition status_success := "success".
Definition status_failure := "failure".
Definition status_invalid_key := "invalid_key".

(** ** The operations of utils/user.js *)

Section Operations.

Variable config : Config.
Variable svc : Services.

(** [new models.User({username: username})] *)
Definition new_User (name : string) : Async User :=
  id <- new_ObjectId ;;
  let d := User_defaults config in
  ret (mkUser id name (activated d) (salt d) (hash d)
              (security_question d) (security_answer d) (last_seen d)).

(** [new models.PasswordReset({reset_key, user_id, date})] *)
Definition new_PasswordReset (key : option string) (uid : ObjectId) (d : Z)
  : Async PasswordReset :=
  id <- new_ObjectId ;;
  ret (mkPasswordReset id key (Some uid) d (PasswordReset_default_used config)).

Definition ldap_authenticate (name pass : string) : Async (Error + string) :=
  emit (EvLdap name pass) ;; ret (ldap_bind svc name pass).

Definition crypt_hash (pass s : string) : Async (Error + string) :=
  emit (EvHash pass s) ;; ret (hash_with_salt svc pass s).

Definition crypt_hash_fresh (pass : string) : Async (Error + (string * string)) :=
  emit (EvHashFresh pass) ;; ret (hash_fresh svc pass).

(** The callback of [findOne] in [isUsernameValid]. *)
Definition isUsernameValid_cb (err : option Error) (user : option User)
  : Async (Reply (option bool)) :=
  if truthy user then
    if truthy err then
      logger LWarn "USERNAME DOC NOT FOUND IN DB" ;;
      callback (Some (new_Error (ERR_AUTH_INVALID_USERNAME config))) None
    else callback None (Some true)
  else callback None (Some false).

Definition isUsernameValid (name : string) : Async (Reply (option bool)) :=
  '(err, user) <- User_findOne (by_username (toLowerCase name)) ;;
  isUsernameValid_cb err user.

(** The callback of [isUsernameValid] in [findOrCreateLDAPUser]. *)
Definition findOrCreateLDAPUser_cb (name : string) (err : option Error)
  (valid : option bool) : Async (Reply (option User)) :=
  match err with
  | Some e => callback (Some e) None
  | None =>
      if match valid with Some b => b | None => false end then
        '(_, existing_user) <- User_findOne (by_username (toLowerCase name)) ;;
        callback None existing_user
      else
        doc <- new_User name ;;
        '(_, new_user) <- User_save doc ;;
        callback None new_user
  end.

Definition findOrCreateLDAPUser (name : string) : Async (Reply (option User)) :=
  '(err, valid) <- isUsernameValid name ;;
  findOrCreateLDAPUser_cb name err valid.

(** The callback of [ldap.authenticate] in [authenticate]. *)
Definition authenticate_ldap_cb (name : string) (r : Error + string)
  : Async (Reply (option User)) :=
  let err := match r with inl e => Some e | inr _ => None end in
  if err_name_is err "ConnectionError" then
    logger LError "LDAP AUTHENTICATION FAILED - LDAP SERVER DOWN" ;;
    callback (Some (new_Error (ERR_AUTH_LDAP_SERVER_DOWN config))) None
  else if err_name_is err "InvalidCredentialsError" then
    logger LError "LDAP AUTHENTICATION FAILED - INVALID CREDENTIALS" ;;
    callback (Some (new_Error (ERR_AUTH_FAILED config))) None
  else if truthy err then
    logger LWarn "LDAP AUTHENTICATION FAILED - UNKNOWN ERROR" ;;
    callback (Some (new_Error (ERR_AUTH_LDAP_ERROR config))) None
  else
    '(_, user) <- findOrCreateLDAPUser name ;;
    callback None user.

(** The callback of [findOne] in the local branch of [authenticate]. *)
Definition authenticate_local_cb (name pass : string) (err : option Error)
  (user : option User) : Async (Reply (option User)) :=
  match user with
  | Some u =>
      if truthy err then
        callback (Some (new_Error (ERR_AUTH_INVALID_USERNAME config))) None
      else if negb (activated u) then
        logger LWarn "AUTHENTICATION - ACTIVATION PENDING" ;;
        callback (Some (new_Error (ERR_AUTH_ACTIVATION_PENDING config))) None
      else
        r <- crypt_hash pass (salt u) ;;
        match r with
        | inl e => callback (Some e) None
        | inr h =>
            if String.eqb h (hash u) then callback None (Some u)
            else
              logger LWarn "AUTHENTICATION - INVALID PASSWORD" ;;
              callback (Some (new_Error (ERR_AUTH_INVALID_PASSWORD config))) None
        end
  | None =>
      logger LWarn "AUTHENTICATION - INVALID USERNAME" ;;
      callback (Some (new_Error (ERR_AUTH_INVALID_USERNAME config))) None
  end.

Definition authenticate (name pass : string) : Async (Reply (option User)) :=
  if AUTH_USE_LDAP config then
    r <- ldap_authenticate name pass ;;
    authenticate_ldap_cb name r
  else
    '(err, user) <- User_findOne (by_username (toLowerCase name)) ;;
    authenticate_local_cb name pass err user.

Definition requiredAuthentication (req : Request) : Async unit :=
  if truthy_string (session_user req) then emit EvNext
  else
    emit (EvSessionError (ERR_AUTH_NOT_LOGGED_IN config)) ;;
    emit (EvRedirect (URL_LOGIN config)).

Definition requiredAdmin (req : Request) : Async unit :=
  if session_is_admin req then emit EvNext
  else
    emit (EvStatus 403) ;;
    if xhr req then emit EvJson else emit (EvRender (TEMPL_403 config)).

(** The callback of [count] in [userExist]; [count === 0]. *)
Definition userExist_cb (err : option Error) (count : option nat) : Async unit :=
  match count with
  | Some 0 => emit EvNext
  | _ =>
      emit (EvSessionError (ERR_SIGNUP_ALREADY_EXISTS config)) ;;
      emit (EvRedirect (URL_SIGNUP config))
  end.

Definition userExist (req : Request) : Async unit :=
  '(err, count) <- User_count (by_username (toLowerCase (body_username req))) ;;
  userExist_cb err count.

(** The callback of [findOne] in [activateUser].  The model [User] built
    from [config.DB_AUTH_TABLE] is a second handle on the user collection. *)
Definition activateUser_cb (id : ObjectId) (err : option Error) (user : option User)
  : Async (Reply (option nat)) :=
  if truthy user then
    '(err, count) <- User_update (by_id_inactive id) (set_activated true) ;;
    match err with
    | Some e => throw e
    | None => callback None count
    end
  else callback (Some (new_Error (ERR_ACTIVATION_INVALID_KEY config))) None.

Definition activateUser (id : ObjectId) : Async (Reply (option nat)) :=
  '(err, user) <- User_findOne (by_id id) ;;
  activateUser_cb id err user.

(** [time_diff <= config.RESET_VALIDITY] *)
Definition within_validity (now d : Z) : bool :=
  PrimFloat.leb (time_diff now d) (RESET_VALIDITY config).

(** The callback of [findOne] in [validateResetKey]. *)
Definition validateResetKey_cb (err : option Error) (reset_entry : option PasswordReset)
  : Async (Reply string) :=
  match reset_entry with
  | Some entry =>
      if used entry then callback None status_used
      else
        now <- new_Date ;;
        if within_validity now (date entry) then callback None status_success
        else callback None status_failure
  | None => callback None status_invalid_key
  end.

Definition validateResetKey (key : string) : Async (Reply string) :=
  '(err, reset_entry) <- PasswordReset_findOne (by_reset_key key) ;;
  validateResetKey_cb err reset_entry.

Definition sendResetKey (name question answer domain ip user_cookie : string)
  : Async (Reply (option string)) :=
  '(_, user) <- User_findOne (by_security (toLowerCase name) question answer) ;;
  match user with
  | Some u =>
      let '(_, key) := pass_generateResetKey svc (_id u) in
      now <- new_Date ;;
      doc <- new_PasswordReset key (_id u) now ;;
      PasswordReset_save doc ;;
      emit (EvMail domain ip user_cookie name key) ;;
      callback None key
  | None => callback (Some (new_Error (ERR_RESET_INVALID_DETAILS config))) None
  end.

(** [User] and [PasswordReset] are built here from [config.DB_AUTH_TABLE]
    and [config.DB_AUTH_PASSWORD_RESET]: handles on the same two collections. *)
Definition resetPassword (key new_password : string) : Async (Reply bool) :=
  let '(_, uid) := pass_decryptResetKey svc key in
  r <- crypt_hash_fresh new_password ;;
  match r with
  | inl e => throw e
  | inr (s, h) =>
      '(err, count) <- User_update (by_opt_id uid) (set_salt_hash s h) ;;
      match err with
      | Some e => throw e
      | None =>
          logger LInfo "RESET PASSWORD - USER DOC UPDATED IN DB WITH NEW HASH" ;;
          '(err, updated_record) <-
             PasswordReset_findOneAndUpdate (by_reset_key key) (set_used true) ;;
          match err with
          | Some e => throw e
          | None =>
              logger LInfo "RESET PASSWORD - RESET KEY DOC INVALIDATED IN DB" ;;
              callback None true
          end
      end
  end.

(** The callback of [count] in [getUnreadFeedbackCount];
    [unread_count || 0]. *)
Definition getUnreadFeedbackCount_cb (err : option Error) (unread_count : option nat)
  : Async (Reply nat) :=
  let unread_count := match unread_count with Some n => n | None => 0 end in
  callback None unread_count.

Definition getUnreadFeedbackCount (last_seen : Z) : Async (Reply nat) :=
  '(err, unread_count) <- Feedback_count (date_gte last_seen) ;;
  getUnreadFeedbackCount_cb err unread_count.

End Operations.

(** ** Vocabulary of the statements *)

(** No request to the document store fails. *)
Definition healthy (w : World) : Prop := Forall (fun f => f = None) (faults w).

Definition is_status (s : string) : Prop :=
  s = status_used \/ s = status_success \/ s = status_failure \/ s = status_invalid_key.

(** The expiry test in the words of its description, in IEEE 754
    binary64 arithmetic as [SpecFloat] specifies it, independently of
    the primitive operations the model of the code runs on. *)

(** The range of the time value of a JavaScript date, in milliseconds. *)
Definition time_value (z : Z) : Prop := (Z.abs z <= 8640000000000000)%Z.

(** The binary64 number nearest to an integer. *)
Definition binary64_of_Z (z : Z) : spec_float := binary_normalize prec emax z 0 false.

(** The absolute difference between the current time and the entry's
    date, converted to hours by dividing by 36e5. *)
Definition hours_apart (now d : Z) : spec_float :=
  SF64div (SFabs (SF64sub (binary64_of_Z now) (binary64_of_Z d))) (binary64_of_Z 3600000).

(** ... is at most the validity [v]. *)
Definition at_most (x : spec_float) (v : float) : bool := SFleb x (Prim2SF v).

(** The next request to the document store fails. *)
Definition next_request_fails (w : World) : Prop :=
  exists e fs, faults w = Some e :: fs.

Definition is_ldap_event (e : Event) : bool :=
  match e with EvLdap _ _ => true | _ => false end.

Definition is_hash_event (e : Event) : bool :=
  match e with EvHash _ _ | EvHashFresh _ => true | _ => false end.

(** [n] successive calls of [findOrCreateLDAPUser] with the same name. *)
Fixpoint findOrCreateLDAPUser_times (config : Config) (name : string) (n : nat)
  (w : World) : World :=
  match n with
  | 0 => w
  | S k => findOrCreateLDAPUser_times config name k
             (snd (findOrCreateLDAPUser config name w))
  end.

(** ** A concrete installation, for running the operations *)

Module Demo.

Definition defaults : User := mkUser 0 "" false "" "" "" "" None.

Definition config (use_ldap : bool) : Config :=
  mkConfig use_ldap "ldap://directory" 24%float
    "LDAP server down" "Authentication failed" "LDAP error"
    "Invalid username" "Activation pending" "Invalid password"
    "Not logged in" "Username already exists" "Invalid activation key"
    "Invalid details" "/login" "/signup" "403" defaults false.

Definition connection_error : Error := mkError "ConnectionError" "connect ECONNREFUSED".
Definition credentials_error : Error := mkError "InvalidCredentialsError" "bad password".
Definition store_error : Error := mkError "MongoError" "connection lost".

Definition svc : Services :=
  mkServices
    (fun name pass =>
       if String.eqb pass "down" then inl connection_error
       else if String.eqb pass "secret" then inr ("cn=" ++ name)
       else inl credentials_error)
    (fun pass s => inr (s ++ ":" ++ pass))
    (fun pass => inr ("s9", "s9:" ++ pass))
    (fun id => (None, Some "k1"))
    (fun key => (None, Some 1)).

Definition alice : User := mkUser 1 "alice" true "s1" "s1:wonder" "pet" "cat" None.
Definition Bob : User := mkUser 2 "Bob" false "" "" "" "" None.

(** A ticket issued at time 0, and the same ticket once used. *)
Definition ticket : PasswordReset := mkPasswordReset 5 (Some "k1") (Some 1) 0 false.
Definition used_ticket : PasswordReset := mkPasswordReset 5 (Some "k1") (Some 1) 0 true.

Definition note (d : Z) : Feedback := mkFeedback 8 (Some 1) "nice quiz" d.

Definition world (us : list User) (rs : list PasswordReset) (now : Z)
  (fs : list (option Error)) : World :=
  mkWorld us rs [note 10; note 20; note 30] 10 now fs [].

End Demo.

(** ** Vocabulary of the further properties *)

(** The three collections are the same in both worlds. *)
Definition same_store (w w' : World) : Prop :=
  users w' = users w /\ resets w' = resets w /\ feedbacks w' = feedbacks w.

(** Time passes between two requests. *)
Definition set_clock (t : Z) (w : World) : World :=
  mkWorld (users w) (resets w) (feedbacks w) (next_id w) t (faults w) (trace w).

Definition is_mail_event (e : Event) : bool :=
  match e with EvMail _ _ _ _ _ => true | _ => false end.

Definition is_next_event (e : Event) : bool :=
  match e with EvNext => true | _ => false end.

(** Every stored username is in lowercase. *)
Definition lowercase_names (us : list User) : Prop :=
  Forall (fun u => toLowerCase (username u) = username u) us.

(** No other stored record has the [_id] of [u]. *)
Definition only_id (u : User) (us : list User) : Prop :=
  forall v, In v us -> _id v = _id u -> v = u.

(** The hashing helper is coherent: a password hashes, with the salt
    drawn for it, to the hash returned with that salt. *)
Definition coherent_hash (svc : Services) (pw : string) : Prop :=
  forall s h, hash_fresh svc pw = inr (s, h) -> hash_with_salt svc pw s = inr h.

Module Scenario.

(** A signed-up user who has not yet followed the activation link. *)
Definition dave : User := mkUser 3 "dave" false "s3" "s3:hunter2" "town" "oslo" None.

(** A hashing helper that is out of order. *)
Definition hash_error : Error := mkError "Error" "pbkdf2 failed".

Definition svc_hash_down : Services :=
  mkServices (ldap_bind Demo.svc) (fun _ _ => inl hash_error) (fun _ => inl hash_error)
             (pass_generateResetKey Demo.svc) (pass_decryptResetKey Demo.svc).

(** A key helper that is out of order: both [generateResetKey] and
    [decryptResetKey] report an error and no value. *)
Definition key_error : Error := mkError "Error" "bad decrypt".

Definition svc_keys_down : Services :=
  mkServices (ldap_bind Demo.svc) (hash_with_salt Demo.svc) (hash_fresh Demo.svc)
             (fun _ => (Some key_error, None)) (fun _ => (Some key_error, None)).

(** The store of a deployment with local accounts. *)
Definition store (fs : list (option Error)) : World :=
  mkWorld [Demo.alice; dave] [] [Demo.note 10; Demo.note 20; Demo.note 30]
          10 1000 fs [].

End Scenario.

(** * Proofs *)

Local Open Scope list_scope.

Create HintDb async discriminated.
#[local] Hint Unfold bind ret throw callback get_world modify emit logger
  next_fault new_Date new_ObjectId : async.
#[local] Hint Unfold User_findOne User_count User_save User_update
  PasswordReset_findOne PasswordReset_save PasswordReset_findOneAndUpdate
  Feedback_count : async.

(* The float comparison stays folded while a run is simplified. *)
Arguments within_validity : simpl never.
Arguments time_diff : simpl never.

Ltac run := autounfold with async; cbn.

(** Case analysis on the fault the next store request meets. *)
Ltac next_fault_cases w :=
  let e := fresh "e" in
  let fs := fresh "fs" in
  destruct (faults w) as [| [e |] fs] eqn:?; cbn.

(** Closes a goal where a fault list assumed healthy holds an error. *)
Ltac unhealthy :=
  exfalso;
  repeat match goal with
         | H : Forall _ (_ :: _) |- _ => inversion H; clear H; subst
         end;
  discriminate.

Ltac decompose_and :=
  repeat match goal with
         | H : _ /\ _ |- _ => destruct H
         end.

Lemma healthy_cases (w : World) :
  healthy w -> faults w = [] \/ exists fs, faults w = None :: fs /\ Forall (fun f => f = None) fs.
Proof.
  unfold healthy. intros H. destruct (faults w) as [| f fs]; [now left | right].
  inversion H; subst. now exists fs.
Qed.

Lemma find_none_iff {A} (q : A -> bool) (l : list A) :
  find q l = None <-> forall x, In x l -> q x = false.
Proof.
  split.
  - intros H x Hx. apply (find_none q l H x Hx).
  - induction l as [| a l IH]; cbn; intros H; [reflexivity |].
    rewrite (H a (or_introl eq_refl)). apply IH. intros x Hx. apply H. now right.
Qed.

(** C8: [validateResetKey] always calls back with a null error and one
    of the four status strings, whatever the store answers; when the
    store returns no entry (in particular when the lookup fails) the
    status is ['invalid_key']. *)
Theorem validateResetKey_always_status (config : Config) :
  (forall err entry w, exists s w',
      validateResetKey_cb config err entry w = (Returned (None, s), w')
      /\ is_status s /\ (entry = None -> s = status_invalid_key))
  /\
  (forall key w, exists s w',
      validateResetKey config key w = (Returned (None, s), w')
      /\ is_status s
      /\ (forall e fs, faults w = Some e :: fs -> s = status_invalid_key)).
Proof.
  assert (Hcb : forall err entry w, exists s w',
      validateResetKey_cb config err entry w = (Returned (None, s), w')
      /\ is_status s /\ (entry = None -> s = status_invalid_key)).
  { intros err [entry |] w; unfold validateResetKey_cb, is_status.
    - destruct (used entry) eqn:Hu; run.
      + do 2 eexists. split; [reflexivity |]. split; [tauto | discriminate].
      + destruct (within_validity config (clock w) (date entry));
          do 2 eexists; (split; [reflexivity |]); (split; [tauto | discriminate]).
    - run. do 2 eexists. split; [reflexivity |]. split; [tauto | reflexivity]. }
  split; [exact Hcb |].
  intros key w. unfold validateResetKey. run.
  next_fault_cases w.
  - destruct (Hcb None (find (by_reset_key key) (resets w))
                (set_trace (trace w ++ [EvDb CPasswordReset OpFindOne]) w))
      as (s & w' & E & Hs & _).
    exists s, w'. rewrite E. repeat split; [exact Hs | discriminate].
  - exists status_invalid_key. eexists. split; [reflexivity |].
    split; [unfold is_status; tauto | reflexivity].
  - match goal with |- context [validateResetKey_cb config None ?x ?w0] =>
      destruct (Hcb None x w0) as (s & w' & E & Hs & _) end.
    exists s, w'. rewrite E. repeat split; [exact Hs | discriminate].
Qed.

Lemma by_reset_key_false (key : string) (p : PasswordReset) :
  by_reset_key key p = false <-> reset_key p <> Some key.
Proof.
  unfold by_reset_key. destruct (reset_key p) as [k |].
  - rewrite String.eqb_neq. split; congruence.
  - split; [discriminate | reflexivity].
Qed.

(** What the lookup of [validateResetKey] hands to its callback. *)
Lemma validateResetKey_run (config : Config) (key : string) (w : World) :
  validateResetKey config key w =
  validateResetKey_cb config None
    (match faults w with Some _ :: _ => None | _ => find (by_reset_key key) (resets w) end)
    (set_faults (tl (faults w)) (set_trace (trace w ++ [EvDb CPasswordReset OpFindOne]) w)).
Proof.
  unfold validateResetKey. run.
  destruct w as [us rs fbs nid ck fs tr]; cbn.
  destruct fs as [| [e |] fs]; reflexivity.
Qed.

(** The primitive operations of the model compute what IEEE 754
    specifies. *)
Lemma binary_round_opp (m : positive) (e : Z) :
  SFopp (binary_round prec emax false m e) = binary_round prec emax true m e.
Proof.
  unfold binary_round, binary_round_aux.
  destruct (shl_align _ _ _) as [mz ez].
  destruct (shr_fexp _ _ _ _ _) as [mrs' e'].
  destruct (shr_fexp _ _ _ _ _) as [mrs'' e''].
  destruct (shr_m mrs''); try reflexivity.
  destruct (Z.leb _ _); reflexivity.
Qed.

Lemma js_number_spec (z : Z) : time_value z -> Prim2SF (js_number z) = binary64_of_Z z.
Proof.
  unfold time_value, js_number, binary64_of_Z. intros Hz.
  assert (HwB : Uint63.wB = 9223372036854775808%Z) by reflexivity.
  destruct (Z.ltb_spec z 0).
  - rewrite opp_spec, of_uint63_spec, Uint63.of_Z_spec, Z.mod_small by lia.
    destruct z as [| p | p]; try lia. cbn. apply binary_round_opp.
  - rewrite of_uint63_spec, Uint63.of_Z_spec, Z.mod_small by lia. reflexivity.
Qed.

Lemma time_diff_spec (now d : Z) :
  time_value now -> time_value d -> Prim2SF (time_diff now d) = hours_apart now d.
Proof.
  intros Hn Hd. unfold time_diff, hours_apart.
  rewrite div_spec, abs_spec, sub_spec, (js_number_spec now Hn), (js_number_spec d Hd).
  reflexivity.
Qed.

Lemma within_validity_spec (config : Config) (now d : Z) :
  time_value now -> time_value d ->
  within_validity config now d = at_most (hours_apart now d) (RESET_VALIDITY config).
Proof.
  intros Hn Hd. unfold within_validity, at_most.
  now rewrite leb_spec, time_diff_spec.
Qed.

(** C3: [validateResetKey] answers ['invalid_key'] when no entry has the
    key; when the lookup returns an unused entry, it answers ['success']
    exactly when the absolute difference between the current time and
    the entry's date, divided by [36e5], is at most [RESET_VALIDITY],
    and ['failure'] otherwise.  The quantity is stated twice: in the
    binary64 arithmetic IEEE 754 specifies, for time values in the range
    of a JavaScript date, and written out in the primitive float
    operations, for all integers. *)
Theorem validateResetKey_expiry (config : Config) (key : string) (w : World) :
  ((forall p, In p (resets w) -> reset_key p <> Some key) ->
   fst (validateResetKey config key w) = Returned (None, status_invalid_key))
  /\
  (forall entry,
      healthy w ->
      find (by_reset_key key) (resets w) = Some entry ->
      used entry = false ->
      time_value (clock w) -> time_value (date entry) ->
      (fst (validateResetKey config key w) = Returned (None, status_success)
       <-> at_most (hours_apart (clock w) (date entry)) (RESET_VALIDITY config) = true)
      /\
      (fst (validateResetKey config key w) = Returned (None, status_failure)
       <-> at_most (hours_apart (clock w) (date entry)) (RESET_VALIDITY config) = false))
  /\
  (forall entry,
      healthy w ->
      find (by_reset_key key) (resets w) = Some entry ->
      used entry = false ->
      (fst (validateResetKey config key w) = Returned (None, status_success)
       <-> (abs (js_number (clock w) - js_number (date entry)) / 36e5
            <=? RESET_VALIDITY config)%float = true)
      /\
      (fst (validateResetKey config key w) = Returned (None, status_failure)
       <-> (abs (js_number (clock w) - js_number (date entry)) / 36e5
            <=? RESET_VALIDITY config)%float = false)).
Proof.
  assert (Hrun : forall entry,
             healthy w ->
             find (by_reset_key key) (resets w) = Some entry ->
             used entry = false ->
             fst (validateResetKey config key w)
             = Returned (None, if within_validity config (clock w) (date entry)
                               then status_success else status_failure)).
  { intros entry Hh Hfind Hunused. rewrite validateResetKey_run.
    assert (E : match faults w with
                | Some _ :: _ => None
                | _ => find (by_reset_key key) (resets w)
                end = Some entry).
    { destruct (healthy_cases w Hh) as [-> | (fs & -> & _)]; exact Hfind. }
    rewrite E. unfold validateResetKey_cb. rewrite Hunused. run.
    destruct (within_validity config (clock w) (date entry)); reflexivity. }
  split; [| split].
  - intros Hno. rewrite validateResetKey_run.
    assert (E : find (by_reset_key key) (resets w) = None).
    { apply find_none_iff. intros p Hp. apply by_reset_key_false. auto. }
    rewrite E. now destruct (faults w) as [| [e |] fs].
  - intros entry Hh Hfind Hunused Hnow Hdate.
    rewrite (Hrun entry Hh Hfind Hunused).
    rewrite <- (within_validity_spec config _ _ Hnow Hdate).
    destruct (within_validity config (clock w) (date entry));
      split; split; intros H; first [reflexivity | discriminate H].
  - intros entry Hh Hfind Hunused.
    rewrite (Hrun entry Hh Hfind Hunused).
    change ((abs (js_number (clock w) - js_number (date entry)) / 36e5
             <=? RESET_VALIDITY config)%float)
      with (within_validity config (clock w) (date entry)).
    destruct (within_validity config (clock w) (date entry));
      split; split; intros H; first [reflexivity | discriminate H].
Qed.

(** A run of C3, with a validity of 24 hours: a ticket issued at time
    5000 is accepted 24 hours later and refused one millisecond after
    that; a ticket dated 24 hours ahead of the clock is accepted too;
    an unknown key is answered ['invalid_key']. *)
Lemma validateResetKey_expiry_witness :
  let issued := mkPasswordReset 5 (Some "k1") (Some 1) 5000 false in
  let ahead := mkPasswordReset 6 (Some "k2") (Some 1) 86405000 false in
  fst (validateResetKey (Demo.config false) "k1"
         (Demo.world [] [issued; ahead] 86405000 [])) = Returned (None, status_success)
  /\ fst (validateResetKey (Demo.config false) "k1"
            (Demo.world [] [issued; ahead] 86405001 [])) = Returned (None, status_failure)
  /\ fst (validateResetKey (Demo.config false) "k2"
            (Demo.world [] [issued; ahead] 5000 [])) = Returned (None, status_success)
  /\ fst (validateResetKey (Demo.config false) "k2"
            (Demo.world [] [issued; ahead] 4999 [])) = Returned (None, status_failure)
  /\ fst (validateResetKey (Demo.config false) "nokey"
            (Demo.world [] [issued; ahead] 86405001 [])) = Returned (None, status_invalid_key).
Proof.
  intros issued ahead.
  assert (Hrange : forall z, (Z.abs z <= 86405001)%Z -> time_value z)
    by (unfold time_value; lia).
  split; [| split; [| split; [| split]]].
  - apply (proj1 (proj2 (validateResetKey_expiry (Demo.config false) "k1"
                           (Demo.world [] [issued; ahead] 86405000 []))) issued);
      try reflexivity; try (apply Hrange; cbn; lia). constructor.
  - apply (proj1 (proj2 (validateResetKey_expiry (Demo.config false) "k1"
                           (Demo.world [] [issued; ahead] 86405001 []))) issued);
      try reflexivity; try (apply Hrange; cbn; lia). constructor.
  - apply (proj1 (proj2 (validateResetKey_expiry (Demo.config false) "k2"
                           (Demo.world [] [issued; ahead] 5000 []))) ahead);
      try reflexivity; try (apply Hrange; cbn; lia). constructor.
  - apply (proj1 (proj2 (validateResetKey_expiry (Demo.config false) "k2"
                           (Demo.world [] [issued; ahead] 4999 []))) ahead);
      try reflexivity; try (apply Hrange; cbn; lia). constructor.
  - apply (proj1 (validateResetKey_expiry (Demo.config false) "nokey"
                    (Demo.world [] [issued; ahead] 86405001 []))).
    cbn. intros p [<- | [<- | []]]; cbn; discriminate.
Defined.

(** The ticket update of [resetPassword] keeps the reset key, so the
    first entry with the key is the updated one. *)
Lemma find_update_first_used (key : string) (l : list PasswordReset) :
  find (by_reset_key key) (update_first (by_reset_key key) (set_used true) l)
  = option_map (set_used true) (find (by_reset_key key) l).
Proof.
  induction l as [| p l IH]; cbn; [reflexivity |].
  destruct (by_reset_key key p) eqn:E; cbn.
  - change (by_reset_key key (set_used true p)) with (by_reset_key key p).
    now rewrite E.
  - now rewrite E.
Qed.

(** A key whose first entry, if any, is used is never answered ['success']. *)
Lemma validateResetKey_not_success (config : Config) (key : string) (w : World) :
  (forall entry, find (by_reset_key key) (resets w) = Some entry -> used entry = true) ->
  fst (validateResetKey config key w) <> Returned (None, status_success).
Proof.
  intros Hused. rewrite validateResetKey_run.
  destruct (faults w) as [| [e |] fs];
    try (cbn; discriminate);
    (destruct (find (by_reset_key key) (resets w)) as [entry |] eqn:E;
     [unfold validateResetKey_cb; rewrite (Hused entry eq_refl) | ]; cbn; discriminate).
Qed.

(** The runs of [resetPassword] that end in the callback. *)
Lemma resetPassword_returned (svc : Services)
  (key pw : string) (w w1 : World) (r : Reply bool) :
  resetPassword svc key pw w = (Returned r, w1) ->
  r = (None, true)
  /\ (exists s h, hash_fresh svc pw = inr (s, h)
        /\ users w1 = update_first (by_opt_id (snd (pass_decryptResetKey svc key)))
                        (set_salt_hash s h) (users w))
  /\ resets w1 = update_first (by_reset_key key) (set_used true) (resets w).
Proof.
  unfold resetPassword, crypt_hash_fresh.
  destruct (pass_decryptResetKey svc key) as [derr uid]; cbn [snd].
  run.
  destruct (hash_fresh svc pw) as [e | [s h]]; cbn; [discriminate |].
  destruct w as [us rs fbs nid ck fs tr]; cbn.
  destruct fs as [| [e |] [| [e' |] fs]]; cbn; try discriminate;
    intros H; injection H as <- <-; cbn; (split; [reflexivity |]);
    (split; [exists s, h; split; reflexivity | reflexivity]).
Qed.

(** With a working store and a working hash, [resetPassword] does end
    in the callback. *)
Lemma resetPassword_returns (svc : Services)
  (key pw : string) (w : World) :
  healthy w -> (exists sh, hash_fresh svc pw = inr sh) ->
  exists w1, resetPassword svc key pw w = (Returned (None, true), w1).
Proof.
  intros Hh [[s h] Hsh].
  unfold resetPassword, crypt_hash_fresh.
  destruct (pass_decryptResetKey svc key) as [derr uid].
  run. rewrite Hsh. cbn.
  destruct w as [us rs fbs nid ck fs tr]; unfold healthy in Hh; cbn in *.
  destruct fs as [| [e |] [| [e' |] fs]]; cbn; try (eexists; reflexivity).
  all: now unhealthy.
Qed.

(** C2: a ticket is single-use.  A key whose stored entry is used is
    answered ['used'] and never ['success']; and when [resetPassword]
    ends in its callback it has updated the user's password and set
    [used] on the ticket, so that no later [validateResetKey] of the key
    answers ['success']. *)
Theorem reset_ticket_single_use (config : Config) (svc : Services) (key : string) :
  (forall w entry,
      find (by_reset_key key) (resets w) = Some entry -> used entry = true ->
      fst (validateResetKey config key w) <> Returned (None, status_success)
      /\ (healthy w ->
          fst (validateResetKey config key w) = Returned (None, status_used)))
  /\
  (forall pw w,
      (healthy w -> (exists sh, hash_fresh svc pw = inr sh) ->
       exists w1, resetPassword svc key pw w = (Returned (None, true), w1))
      /\
      (forall r w1,
          resetPassword svc key pw w = (Returned r, w1) ->
          (exists s h, hash_fresh svc pw = inr (s, h)
             /\ users w1 = update_first (by_opt_id (snd (pass_decryptResetKey svc key)))
                             (set_salt_hash s h) (users w))
          /\ resets w1 = update_first (by_reset_key key) (set_used true) (resets w)
          /\ (forall entry,
                 find (by_reset_key key) (resets w1) = Some entry -> used entry = true)
          /\ (forall w2,
                 resets w2 = resets w1 ->
                 fst (validateResetKey config key w2) <> Returned (None, status_success)))).
Proof.
  split.
  - intros w entry Hfind Hused. split.
    + apply validateResetKey_not_success. intros e' He'. congruence.
    + intros Hh. rewrite validateResetKey_run.
      destruct (healthy_cases w Hh) as [-> | (fs & -> & _)];
        rewrite Hfind; unfold validateResetKey_cb; rewrite Hused; reflexivity.
  - intros pw w. split; [apply resetPassword_returns |].
    intros r w1 Hrun.
    destruct (resetPassword_returned _ _ _ _ _ _ Hrun) as (_ & Husers & Hresets).
    assert (Hall : forall entry,
               find (by_reset_key key) (resets w1) = Some entry -> used entry = true).
    { intros entry. rewrite Hresets, find_update_first_used.
      destruct (find (by_reset_key key) (resets w)); cbn; [| discriminate].
      intros H. injection H as <-. reflexivity. }
    repeat split; try assumption.
    intros w2 E. apply validateResetKey_not_success. rewrite E. exact Hall.
Qed.

(** A run of C2: the ticket ["k1"] is valid, [resetPassword] goes
    through, and the same key is then answered ['used']. *)
Lemma reset_ticket_single_use_witness :
  let w := Demo.world [Demo.alice] [Demo.ticket] 1000 [] in
  fst (validateResetKey (Demo.config false) "k1" w) = Returned (None, status_success)
  /\ (exists w1, resetPassword Demo.svc "k1" "newpw" w
                 = (Returned (None, true), w1)
                 /\ fst (validateResetKey (Demo.config false) "k1" w1)
                    = Returned (None, status_used)).
Proof.
  intros w. split; [reflexivity |].
  destruct (proj1 (proj2 (reset_ticket_single_use (Demo.config false) Demo.svc "k1")
                     "newpw" w)) as [w1 Hw1].
  - constructor.
  - eexists. reflexivity.
  - exists w1. split; [exact Hw1 |].
    destruct (proj2 (proj2 (reset_ticket_single_use (Demo.config false) Demo.svc "k1")
                       "newpw" w) _ _ Hw1) as (_ & _ & Hused & _).
    injection Hw1 as <-.
    apply (proj1 (reset_ticket_single_use (Demo.config false) Demo.svc "k1")
             _ Demo.used_ticket); [reflexivity | reflexivity | constructor].
Defined.



#[local] Hint Unfold ldap_authenticate crypt_hash crypt_hash_fresh
  new_User new_PasswordReset : async.

(** [isUsernameValid] and [findOrCreateLDAPUser] always end in their
    callback. *)
Lemma isUsernameValid_calls_back (config : Config) (name : string) (w : World) :
  exists err valid w', isUsernameValid config name w = (Returned (err, valid), w').
Proof.
  unfold isUsernameValid, isUsernameValid_cb. run.
  destruct w as [us rs fbs nid ck fs tr]; cbn.
  destruct fs as [| [e |] fs]; cbn;
    try destruct (find (by_username (toLowerCase name)) us); cbn;
    do 3 eexists; reflexivity.
Qed.

Lemma findOrCreateLDAPUser_calls_back (config : Config) (name : string) (w : World) :
  exists err user w', findOrCreateLDAPUser config name w = (Returned (err, user), w').
Proof.
  unfold findOrCreateLDAPUser, findOrCreateLDAPUser_cb, isUsernameValid,
    isUsernameValid_cb. run.
  destruct w as [us rs fbs nid ck fs tr]; cbn.
  destruct fs as [| [e |] [| [e' |] fs]]; cbn;
    try destruct (find (by_username (toLowerCase name)) us); cbn;
    do 3 eexists; reflexivity.
Qed.

(** C6: with LDAP in use, an LDAP error is classified by its name:
    ['ConnectionError'] gives [ERR_AUTH_LDAP_SERVER_DOWN],
    ['InvalidCredentialsError'] gives [ERR_AUTH_FAILED], any other name
    gives [ERR_AUTH_LDAP_ERROR]; without an error [authenticate] calls
    back with a null error and the user of [findOrCreateLDAPUser]. *)
Theorem authenticate_ldap_classification (config : Config) (svc : Services)
  (name pass : string) (w : World) :
  AUTH_USE_LDAP config = true ->
  (forall err, ldap_bind svc name pass = inl err ->
      (err_name err = "ConnectionError" ->
       fst (authenticate config svc name pass w)
       = Returned (Some (new_Error (ERR_AUTH_LDAP_SERVER_DOWN config)), None))
      /\ (err_name err = "InvalidCredentialsError" ->
          fst (authenticate config svc name pass w)
          = Returned (Some (new_Error (ERR_AUTH_FAILED config)), None))
      /\ (err_name err <> "ConnectionError" ->
          err_name err <> "InvalidCredentialsError" ->
          fst (authenticate config svc name pass w)
          = Returned (Some (new_Error (ERR_AUTH_LDAP_ERROR config)), None)))
  /\
  (forall entry, ldap_bind svc name pass = inr entry ->
      exists err user w1,
        findOrCreateLDAPUser config name (set_trace (trace w ++ [EvLdap name pass]) w)
        = (Returned (err, user), w1)
        /\ authenticate config svc name pass w = (Returned (None, user), w1)).
Proof.
  intros Hldap. unfold authenticate. rewrite Hldap. split.
  - intros err Hbind. unfold authenticate_ldap_cb. run. rewrite Hbind. cbn.
    repeat split.
    + intros ->. reflexivity.
    + intros ->. reflexivity.
    + intros H1 H2.
      apply String.eqb_neq in H1, H2. rewrite H1, H2. reflexivity.
  - intros entry Hbind.
    destruct (findOrCreateLDAPUser_calls_back config name
                (set_trace (trace w ++ [EvLdap name pass]) w)) as (err & user & w1 & E).
    exists err, user, w1. split; [exact E |].
    unfold authenticate_ldap_cb, ldap_authenticate, bind, emit, modify, ret, callback.
    rewrite Hbind. cbn. rewrite E. reflexivity.
Qed.

(** A run of C6 against the demo directory. *)
Lemma authenticate_ldap_classification_witness :
  fst (authenticate (Demo.config true) Demo.svc "alice" "down" (Demo.world [] [] 0 []))
  = Returned (Some (new_Error "LDAP server down"), None)
  /\ fst (authenticate (Demo.config true) Demo.svc "alice" "wrong" (Demo.world [] [] 0 []))
     = Returned (Some (new_Error "Authentication failed"), None).
Proof.
  split.
  - apply (proj1 (authenticate_ldap_classification (Demo.config true) Demo.svc
                    "alice" "down" (Demo.world [] [] 0 []) eq_refl)
             Demo.connection_error eq_refl).
    reflexivity.
  - apply (proj1 (authenticate_ldap_classification (Demo.config true) Demo.svc
                    "alice" "wrong" (Demo.world [] [] 0 []) eq_refl)
             Demo.credentials_error eq_refl).
    reflexivity.
Defined.

(** Puts the trace of a finished run in the form [before ++ events]. *)
Ltac split_trace :=
  cbn; rewrite <- ?app_assoc; cbn [app];
  eexists; split; [reflexivity |]; cbn; split; [tauto | reflexivity].

(** C5: [authenticate] dispatches on [AUTH_USE_LDAP].  When it is set
    the run asks the LDAP directory and never hashes a password; when it
    is not set the run queries the user collection and sends nothing to
    the directory. *)
Theorem authenticate_dispatch (config : Config) (svc : Services)
  (name pass : string) (w : World) :
  exists events,
    trace (snd (authenticate config svc name pass w)) = (trace w ++ events)%list
    /\ if AUTH_USE_LDAP config
       then In (EvLdap name pass) events
            /\ forallb (fun e => negb (is_hash_event e)) events = true
       else In (EvDb CUser OpFindOne) events
            /\ forallb (fun e => negb (is_ldap_event e)) events = true.
Proof.
  unfold authenticate.
  destruct w as [us rs fbs nid ck fs tr].
  destruct (AUTH_USE_LDAP config).
  - unfold authenticate_ldap_cb, findOrCreateLDAPUser, findOrCreateLDAPUser_cb,
      isUsernameValid, isUsernameValid_cb. run.
    destruct (ldap_bind svc name pass) as [err | entry]; cbn.
    + destruct (String.eqb (err_name err) "ConnectionError"); [split_trace |].
      destruct (String.eqb (err_name err) "InvalidCredentialsError"); split_trace.
    + destruct fs as [| [e |] [| [e' |] fs]]; cbn;
        try destruct (find (by_username (toLowerCase name)) us); split_trace.
  - unfold authenticate_local_cb. run.
    destruct fs as [| [e |] fs]; cbn;
      try (destruct (find (by_username (toLowerCase name)) us) as [u |]; cbn;
           [destruct (activated u); cbn;
            [destruct (hash_with_salt svc pass (salt u)) as [e1 | h]; cbn;
             [| destruct (String.eqb h (hash u))] |] |]);
      split_trace.
Qed.

(** The local branch of [authenticate] on a working store: the callback
    of the lookup runs on the first record with the lowercased name. *)
Lemma authenticate_local_run (config : Config) (svc : Services)
  (name pass : string) (w : World) :
  AUTH_USE_LDAP config = false -> healthy w ->
  authenticate config svc name pass w
  = authenticate_local_cb config svc name pass None
      (find (by_username (toLowerCase name)) (users w))
      (set_faults (tl (faults w)) (set_trace (trace w ++ [EvDb CUser OpFindOne]) w)).
Proof.
  intros Hcfg Hh. unfold authenticate. rewrite Hcfg. run.
  destruct w as [us rs fbs nid ck fs tr]; unfold healthy in Hh; cbn in *.
  destruct fs as [| [e |] fs]; cbn; try reflexivity. now unhealthy.
Qed.

(** An error of the hashing helper is handed to the callback as it is. *)
Lemma authenticate_local_hash_error (config : Config) (svc : Services)
  (name pass : string) (w : World) (u : User) (e : Error) :
  AUTH_USE_LDAP config = false -> healthy w ->
  find (by_username (toLowerCase name)) (users w) = Some u ->
  activated u = true ->
  hash_with_salt svc pass (salt u) = inl e ->
  fst (authenticate config svc name pass w) = Returned (Some e, None).
Proof.
  intros Hcfg Hh Hfind Hact Hhash.
  rewrite (authenticate_local_run _ _ _ _ _ Hcfg Hh), Hfind.
  unfold authenticate_local_cb. rewrite Hact. run. rewrite Hhash. reflexivity.
Qed.

(** A failed lookup is reported as an invalid username. *)
Lemma authenticate_local_store_error (config : Config) (svc : Services)
  (name pass : string) (w : World) (e : Error) (fs : list (option Error)) :
  AUTH_USE_LDAP config = false -> faults w = Some e :: fs ->
  fst (authenticate config svc name pass w)
  = Returned (Some (new_Error (ERR_AUTH_INVALID_USERNAME config)), None).
Proof.
  intros Hcfg Hf. unfold authenticate. rewrite Hcfg. run.
  destruct w as [us rs fbs nid ck fs' tr]; cbn in *. subst fs'. reflexivity.
Qed.

Ltac local_run Hcfg :=
  unfold authenticate; rewrite Hcfg; unfold authenticate_local_cb; run.

(** The reply of the local branch depends on the name through its
    lowercased form only. *)
Lemma authenticate_local_reply (config : Config) (svc : Services)
  (name pass : string) (w : World) :
  AUTH_USE_LDAP config = false ->
  fst (authenticate config svc name pass w)
  = match faults w with
    | Some _ :: _ => Returned (Some (new_Error (ERR_AUTH_INVALID_USERNAME config)), None)
    | _ =>
        match find (by_username (toLowerCase name)) (users w) with
        | None => Returned (Some (new_Error (ERR_AUTH_INVALID_USERNAME config)), None)
        | Some u =>
            if negb (activated u)
            then Returned (Some (new_Error (ERR_AUTH_ACTIVATION_PENDING config)), None)
            else match hash_with_salt svc pass (salt u) with
                 | inl e => Returned (Some e, None)
                 | inr h =>
                     if String.eqb h (hash u) then Returned (None, Some u)
                     else Returned
                            (Some (new_Error (ERR_AUTH_INVALID_PASSWORD config)), None)
                 end
        end
    end.
Proof.
  intros Hcfg. local_run Hcfg.
  destruct w as [us rs fbs nid ck fs tr]; cbn.
  destruct fs as [| [e |] fs]; cbn;
    try (destruct (find (by_username (toLowerCase name)) us) as [u |]; cbn;
         [destruct (activated u); cbn;
          [destruct (hash_with_salt svc pass (salt u)) as [e1 | h]; cbn;
           [| destruct (String.eqb h (hash u))] |] |]);
    reflexivity.
Qed.

(** C4, as the code has it: with the local store in use, for every
    name, password and state of the store, [authenticate] calls back
    with the stored user record exactly when the lookup works and
    returns a record with the lowercased username, the record is
    activated, and the hashing helper returns a hash equal to the
    record's hash; in every other case it calls back with an error: the
    invalid-username error when the lookup fails or returns no record,
    the activation-pending error when the record is not activated, the
    error of the hashing helper itself when hashing fails, and the
    invalid-password error when the hash differs. *)
Theorem authenticate_local_outcomes (config : Config) (svc : Services)
  (name pass : string) (w : World) :
  AUTH_USE_LDAP config = false ->
  let stored := find (by_username (toLowerCase name)) (users w) in
  let reply := fst (authenticate config svc name pass w) in
  (forall u, reply = Returned (None, Some u)
             <-> ~ next_request_fails w /\ stored = Some u /\ activated u = true
                 /\ hash_with_salt svc pass (salt u) = inr (hash u))
  /\ (next_request_fails w \/ stored = None ->
      reply = Returned (Some (new_Error (ERR_AUTH_INVALID_USERNAME config)), None))
  /\ (forall u, ~ next_request_fails w -> stored = Some u -> activated u = false ->
      reply = Returned (Some (new_Error (ERR_AUTH_ACTIVATION_PENDING config)), None))
  /\ (forall u e, ~ next_request_fails w -> stored = Some u -> activated u = true ->
      hash_with_salt svc pass (salt u) = inl e ->
      reply = Returned (Some e, None))
  /\ (forall u h, ~ next_request_fails w -> stored = Some u -> activated u = true ->
      hash_with_salt svc pass (salt u) = inr h -> h <> hash u ->
      reply = Returned (Some (new_Error (ERR_AUTH_INVALID_PASSWORD config)), None)).
Proof.
  intros Hcfg stored reply. subst reply.
  rewrite (authenticate_local_reply _ _ _ _ _ Hcfg). fold stored.
  unfold next_request_fails.
  destruct (faults w) as [| [e |] fs].
  2: { assert (Hfails : exists e0 fs0, Some e :: fs = Some e0 :: fs0)
         by (do 2 eexists; reflexivity).
       repeat split; intros; decompose_and;
         first [reflexivity | discriminate | contradiction]. }
  all: destruct stored as [u |];
    [destruct (activated u) eqn:Hact; cbn;
     [destruct (hash_with_salt svc pass (salt u)) as [e1 | h] eqn:Hhash;
      [| destruct (String.eqb_spec h (hash u)) as [-> | Hne]] |] |];
    repeat split; intros; decompose_and;
    repeat match goal with
           | H : _ \/ _ |- _ => destruct H
           | H : exists _, _ |- _ => destruct H
           end;
    try congruence; try discriminate;
    let H0 := fresh "H" in intros (? & ? & H0); discriminate H0.
Qed.

(** A run of the amended C4: alice logs in; with the hashing helper out
    of order she gets the helper's error, and with a failing lookup the
    invalid-username error. *)
Lemma authenticate_local_outcomes_witness :
  fst (authenticate (Demo.config false) Demo.svc "Alice" "wonder" (Scenario.store []))
  = Returned (None, Some Demo.alice)
  /\ fst (authenticate (Demo.config false) Scenario.svc_hash_down "Alice" "wonder"
            (Scenario.store []))
     = Returned (Some Scenario.hash_error, None)
  /\ fst (authenticate (Demo.config false) Demo.svc "Alice" "wonder"
            (Scenario.store [Some Demo.store_error]))
     = Returned (Some (new_Error "Invalid username"), None).
Proof.
  assert (Hworks : ~ next_request_fails (Scenario.store []))
    by (intros (e & fs & H); discriminate H).
  split; [| split].
  - apply (proj1 (authenticate_local_outcomes (Demo.config false) Demo.svc
                    "Alice" "wonder" (Scenario.store []) eq_refl)).
    repeat split. exact Hworks.
  - apply (proj1 (proj2 (proj2 (proj2
             (authenticate_local_outcomes (Demo.config false) Scenario.svc_hash_down
                "Alice" "wonder" (Scenario.store []) eq_refl)))) Demo.alice);
      [exact Hworks | reflexivity | reflexivity | reflexivity].
  - apply (proj1 (proj2 (authenticate_local_outcomes (Demo.config false) Demo.svc
                           "Alice" "wonder" (Scenario.store [Some Demo.store_error])
                           eq_refl))).
    left. do 2 eexists. reflexivity.
Defined.

(** C4 as stated fails.  With alice stored, activated and her password
    right, a hashing helper out of order makes [authenticate] call back
    with the helper's error, which is none of the three errors of the
    claim; and a failing lookup makes it call back with the
    invalid-username error although the record exists. *)
Lemma authenticate_local_other_errors :
  let hashing_down :=
    fst (authenticate (Demo.config false) Scenario.svc_hash_down "alice" "wonder"
           (Scenario.store [])) in
  let lookup_down :=
    fst (authenticate (Demo.config false) Demo.svc "alice" "wonder"
           (Scenario.store [Some Demo.store_error])) in
  find (by_username "alice") (users (Scenario.store [])) = Some Demo.alice
  /\ activated Demo.alice = true
  /\ hash_with_salt Demo.svc "wonder" (salt Demo.alice) = inr (hash Demo.alice)
  /\ hashing_down = Returned (Some Scenario.hash_error, None)
  /\ hashing_down
     <> Returned (Some (new_Error (ERR_AUTH_INVALID_USERNAME (Demo.config false))), None)
  /\ hashing_down
     <> Returned (Some (new_Error (ERR_AUTH_ACTIVATION_PENDING (Demo.config false))), None)
  /\ hashing_down
     <> Returned (Some (new_Error (ERR_AUTH_INVALID_PASSWORD (Demo.config false))), None)
  /\ lookup_down
     = Returned (Some (new_Error (ERR_AUTH_INVALID_USERNAME (Demo.config false))), None).
Proof.
  cbv zeta. repeat split; discriminate.
Qed.

Lemma by_username_false (name : string) (u : User) :
  by_username name u = false <-> username u <> name.
Proof. unfold by_username. apply String.eqb_neq. Qed.

(** [findOrCreateLDAPUser] on a working store, when the lookup by the
    lowercased name finds a record: the record is returned and nothing
    is written. *)
Lemma findOrCreateLDAPUser_found (config : Config) (name : string) (w : World) (u : User) :
  healthy w ->
  find (by_username (toLowerCase name)) (users w) = Some u ->
  exists w',
    findOrCreateLDAPUser config name w = (Returned (None, Some u), w')
    /\ users w' = users w /\ healthy w'.
Proof.
  intros Hh Hfind.
  unfold findOrCreateLDAPUser, findOrCreateLDAPUser_cb, isUsernameValid,
    isUsernameValid_cb. run.
  destruct w as [us rs fbs nid ck fs tr]; unfold healthy in *; cbn in *.
  destruct fs as [| [e |] [| [e' |] fs]]; cbn; rewrite ?Hfind; cbn;
    try (now unhealthy); rewrite ?Hfind;
    eexists; (split; [reflexivity |]); (split; [reflexivity |]); cbn;
    repeat match goal with
           | H : Forall _ (_ :: _) |- _ => inversion H; clear H; subst
           end; auto.
Qed.

(** When the lookup by the lowercased name finds nothing, a record with
    the name as given is appended. *)
Lemma findOrCreateLDAPUser_created (config : Config) (name : string) (w : World) :
  healthy w ->
  find (by_username (toLowerCase name)) (users w) = None ->
  exists u w',
    findOrCreateLDAPUser config name w = (Returned (None, Some u), w')
    /\ username u = name
    /\ users w' = users w ++ [u] /\ healthy w'.
Proof.
  intros Hh Hfind.
  unfold findOrCreateLDAPUser, findOrCreateLDAPUser_cb, isUsernameValid,
    isUsernameValid_cb. run.
  destruct w as [us rs fbs nid ck fs tr]; unfold healthy in *; cbn in *.
  destruct fs as [| [e |] [| [e' |] fs]]; cbn; rewrite ?Hfind; cbn;
    try (now unhealthy);
    do 2 eexists; (split; [reflexivity |]); (split; [reflexivity |]);
    (split; [reflexivity |]); cbn;
    repeat match goal with
           | H : Forall _ (_ :: _) |- _ => inversion H; clear H; subst
           end; auto.
Qed.

Lemma find_app_new {A} (q : A -> bool) (l : list A) (x : A) :
  find q l = None -> q x = true -> find q (l ++ [x]) = Some x.
Proof.
  induction l as [| a l IH]; cbn; intros Hl Hx.
  - now rewrite Hx.
  - destruct (q a); [discriminate | auto].
Qed.

(** Repeated calls with a name whose lowercased form is not stored. *)
Lemma findOrCreateLDAPUser_times_created (config : Config) (name : string) (n : nat) :
  toLowerCase name <> name ->
  forall w,
    healthy w ->
    (forall u, In u (users w) -> username u <> toLowerCase name) ->
    exists created,
      users (findOrCreateLDAPUser_times config name n w) = users w ++ created
      /\ length created = n
      /\ Forall (fun u => username u = name) created.
Proof.
  intros Hcase. induction n as [| n IH]; intros w Hh Habsent; cbn.
  - exists []. rewrite app_nil_r. repeat split. constructor.
  - assert (Hfind : find (by_username (toLowerCase name)) (users w) = None).
    { apply find_none_iff. intros u Hu. apply by_username_false. auto. }
    destruct (findOrCreateLDAPUser_created config name w Hh Hfind)
      as (u & w1 & E & Hname & Husers & Hh1).
    rewrite E. cbn [snd].
    destruct (IH w1 Hh1) as (created & Hc & Hlen & Hall).
    { intros v. rewrite Husers, in_app_iff. cbn.
      intros [Hv | [<- | []]]; [auto | congruence]. }
    exists (u :: created). rewrite Hc, Husers, <- app_assoc. cbn.
    repeat split; [congruence | constructor; assumption].
Qed.

(** C9: [findOrCreateLDAPUser] looks up by the lowercased name and
    stores the name as given.  For a name equal to its lowercased form a
    second call returns the record of the first call and writes nothing;
    for some name with an uppercase letter every call appends a record. *)
Theorem findOrCreateLDAPUser_idempotent_lowercase_only (config : Config) :
  (forall name w,
      toLowerCase name = name -> healthy w ->
      exists u w1 w2,
        findOrCreateLDAPUser config name w = (Returned (None, Some u), w1)
        /\ username u = name
        /\ findOrCreateLDAPUser config name w1 = (Returned (None, Some u), w2)
        /\ users w2 = users w1)
  /\
  (exists name,
      toLowerCase name <> name
      /\ forall w n,
          healthy w ->
          (forall u, In u (users w) -> username u <> toLowerCase name) ->
          exists created,
            users (findOrCreateLDAPUser_times config name n w) = users w ++ created
            /\ length created = n
            /\ Forall (fun u => username u = name) created).
Proof.
  split.
  - intros name w Hlow Hh.
    destruct (find (by_username (toLowerCase name)) (users w)) as [u |] eqn:Hfind.
    + destruct (findOrCreateLDAPUser_found config name w u Hh Hfind)
        as (w1 & E1 & Hus1 & Hh1).
      assert (Hfind1 : find (by_username (toLowerCase name)) (users w1) = Some u)
        by (now rewrite Hus1).
      destruct (findOrCreateLDAPUser_found config name w1 u Hh1 Hfind1)
        as (w2 & E2 & Hus2 & _).
      exists u, w1, w2. repeat split; try assumption.
      apply find_some in Hfind. destruct Hfind as [_ Hq].
      apply String.eqb_eq in Hq. congruence.
    + destruct (findOrCreateLDAPUser_created config name w Hh Hfind)
        as (u & w1 & E1 & Hname & Hus1 & Hh1).
      assert (Hfind1 : find (by_username (toLowerCase name)) (users w1) = Some u).
      { rewrite Hus1. apply find_app_new; [exact Hfind |].
        unfold by_username. apply String.eqb_eq. congruence. }
      destruct (findOrCreateLDAPUser_found config name w1 u Hh1 Hfind1)
        as (w2 & E2 & Hus2 & _).
      exists u, w1, w2. repeat split; assumption.
  - exists "Bob". split; [discriminate |].
    intros w n. apply findOrCreateLDAPUser_times_created. discriminate.
Qed.

(** A run of C9: two calls with ["carol"] leave one record, two calls
    with ["Bob"] leave two. *)
Lemma findOrCreateLDAPUser_idempotent_lowercase_only_witness :
  let w := Demo.world [] [] 0 [] in
  (exists u w1 w2,
      findOrCreateLDAPUser (Demo.config true) "carol" w = (Returned (None, Some u), w1)
      /\ username u = "carol"
      /\ findOrCreateLDAPUser (Demo.config true) "carol" w1
         = (Returned (None, Some u), w2)
      /\ users w2 = users w1)
  /\ map username (users (findOrCreateLDAPUser_times (Demo.config true) "carol" 2 w))
     = ["carol"]
  /\ map username (users (findOrCreateLDAPUser_times (Demo.config true) "Bob" 2 w))
     = ["Bob"; "Bob"].
Proof.
  intros w. split; [| split; reflexivity].
  apply (proj1 (findOrCreateLDAPUser_idempotent_lowercase_only (Demo.config true))
           "carol" w); [reflexivity | constructor].
Defined.

(** The gate of the signup route: [next()] is called only when the
    store counts no record with the lowercased requested name; in every
    other case the request is sent back to the signup page. *)
Lemma userExist_gate (config : Config) (req : Request) (w : World) :
  exists events,
    trace (snd (userExist config req w)) = (trace w ++ EvDb CUser OpCount :: events)%list
    /\ (events = [EvNext]
        /\ (forall u, In u (users w) ->
                      username u <> toLowerCase (body_username req))
        \/ events = [EvSessionError (ERR_SIGNUP_ALREADY_EXISTS config);
                     EvRedirect (URL_SIGNUP config)]).
Proof.
  unfold userExist, userExist_cb. run.
  destruct w as [us rs fbs nid ck fs tr]; cbn.
  assert (Hzero : length (filter (by_username (toLowerCase (body_username req))) us) = 0 ->
                  forall u, In u us -> username u <> toLowerCase (body_username req)).
  { intros Hlen u Hu. apply by_username_false.
    destruct (by_username (toLowerCase (body_username req)) u) eqn:E; [| reflexivity].
    assert (Hin : In u (filter (by_username (toLowerCase (body_username req))) us))
      by (apply filter_In; auto).
    destruct (filter (by_username (toLowerCase (body_username req))) us);
      [destruct Hin | discriminate]. }
  destruct fs as [| [e |] fs]; cbn;
    try (destruct (length (filter (by_username (toLowerCase (body_username req))) us))
           eqn:Hlen; cbn);
    rewrite <- ?app_assoc; cbn [app]; eexists; (split; [reflexivity |]); auto.
Qed.

(** C7, the code on the failing input: with LDAP in use and an empty
    user collection, two logins of the directory user ["Bob"] insert two
    records named ["Bob"]; the second insertion happens although a
    record with that username exists. *)
Theorem authenticate_ldap_inserts_duplicate_username :
  let w0 := Demo.world [] [] 0 [] in
  let w1 := snd (authenticate (Demo.config true) Demo.svc "Bob" "secret" w0) in
  let w2 := snd (authenticate (Demo.config true) Demo.svc "Bob" "secret" w1) in
  map username (users w1) = ["Bob"]
  /\ map username (users w2) = ["Bob"; "Bob"]
  /\ map _id (users w2) = [10; 11].
Proof. repeat split. Qed.

(** An LDAP error reaches the callback as one of three errors. *)
Lemma authenticate_ldap_bind_error (config : Config) (svc : Services)
  (name pass : string) (w : World) (e : Error) :
  AUTH_USE_LDAP config = true -> ldap_bind svc name pass = inl e ->
  exists msg,
    In msg [ERR_AUTH_LDAP_SERVER_DOWN config; ERR_AUTH_FAILED config;
            ERR_AUTH_LDAP_ERROR config]
    /\ fst (authenticate config svc name pass w) = Returned (Some (new_Error msg), None).
Proof.
  intros Hcfg Hbind. unfold authenticate, authenticate_ldap_cb. rewrite Hcfg. run.
  rewrite Hbind. cbn.
  destruct (String.eqb (err_name e) "ConnectionError");
    [eexists; split; [| reflexivity]; cbn; auto |].
  destruct (String.eqb (err_name e) "InvalidCredentialsError");
    eexists; (split; [| reflexivity]); cbn; auto.
Qed.

(** After a successful bind the callback gets a null error. *)
Lemma authenticate_ldap_null_error (config : Config) (svc : Services)
  (name pass entry : string) (w : World) :
  AUTH_USE_LDAP config = true -> ldap_bind svc name pass = inr entry ->
  exists user, fst (authenticate config svc name pass w) = Returned (None, user).
Proof.
  intros Hcfg Hbind. unfold authenticate, authenticate_ldap_cb. rewrite Hcfg.
  destruct (findOrCreateLDAPUser_calls_back config name
              (set_trace (trace w ++ [EvLdap name pass]) w)) as (err & user & w1 & E).
  exists user.
  unfold ldap_authenticate, bind, emit, modify, ret, callback.
  rewrite Hbind. cbn. rewrite E. reflexivity.
Qed.

(** What the operations answer when their first request to the store
    fails. *)
Lemma failed_first_request (config : Config) (svc : Services) (w : World) :
  next_request_fails w ->
  (forall name,
      fst (isUsernameValid config name w) = Returned (None, Some false))
  /\ (forall id,
         fst (activateUser config id w)
         = Returned (Some (new_Error (ERR_ACTIVATION_INVALID_KEY config)), None))
  /\ (forall key,
         fst (validateResetKey config key w) = Returned (None, status_invalid_key))
  /\ (forall name question answer domain ip user_cookie,
         fst (sendResetKey config svc name question answer domain ip user_cookie w)
         = Returned (Some (new_Error (ERR_RESET_INVALID_DETAILS config)), None))
  /\ (forall last_seen,
         fst (getUnreadFeedbackCount last_seen w) = Returned (None, 0))
  /\ (forall req,
         trace (snd (userExist config req w))
         = trace w ++ [EvDb CUser OpCount;
                       EvSessionError (ERR_SIGNUP_ALREADY_EXISTS config);
                       EvRedirect (URL_SIGNUP config)]).
Proof.
  intros (e & fs & Hf).
  destruct w as [us rs fbs nid ck fs' tr]; cbn in Hf; subst fs'.
  split; [intros; unfold isUsernameValid, isUsernameValid_cb; run; reflexivity |].
  split; [intros; unfold activateUser, activateUser_cb; run; reflexivity |].
  split; [intros; rewrite validateResetKey_run; reflexivity |].
  split; [intros; unfold sendResetKey; run; reflexivity |].
  split; [intros; unfold getUnreadFeedbackCount, getUnreadFeedbackCount_cb; run;
          reflexivity |].
  intros. unfold userExist, userExist_cb. run. cbn. rewrite <- !app_assoc. reflexivity.
Qed.

(** [sendResetKey] hands the key over whatever [generateResetKey] and
    the save of the ticket report. *)
Lemma sendResetKey_drops_errors (config : Config) (svc : Services)
  (name question answer domain ip user_cookie : string) (w : World) (u : User) :
  ~ next_request_fails w ->
  find (by_security (toLowerCase name) question answer) (users w) = Some u ->
  fst (sendResetKey config svc name question answer domain ip user_cookie w)
  = Returned (None, snd (pass_generateResetKey svc (_id u))).
Proof.
  intros Hworks Hfind. unfold sendResetKey. run.
  destruct w as [us rs fbs nid ck fs tr]; cbn in *.
  destruct (pass_generateResetKey svc (_id u)) as [gerr k] eqn:Hgen.
  destruct fs as [| [e |] [| [e' |] fs]]; cbn; rewrite ?Hfind; cbn; rewrite ?Hgen;
    try reflexivity;
    exfalso; apply Hworks; do 2 eexists; reflexivity.
Qed.

(** [activateUser] throws exactly the error of its update. *)
Lemma activateUser_outcome (config : Config) (id : ObjectId) (w : World) :
  (forall e, fst (activateUser config id w) = Thrown e
             <-> find (by_id id) (users w) <> None
                 /\ exists fs, faults w = None :: Some e :: fs)
  /\ (find (by_id id) (users w) = None \/ (exists e fs, faults w = Some e :: fs) ->
      fst (activateUser config id w)
      = Returned (Some (new_Error (ERR_ACTIVATION_INVALID_KEY config)), None))
  /\ (forall r, fst (activateUser config id w) = Returned r ->
      r = (Some (new_Error (ERR_ACTIVATION_INVALID_KEY config)), None)
      \/ exists n, r = (None, Some n)).
Proof.
  unfold activateUser, activateUser_cb. run.
  destruct w as [us rs fbs nid ck fs tr]; cbn.
  destruct fs as [| [e |] [| [e' |] fs]]; cbn;
    try (destruct (find (by_id id) us) as [u |]; cbn);
    (split; [intros e0; split;
               [first [discriminate
                      | intros H; injection H as <-;
                        split; [discriminate | eexists; reflexivity]]
               | intros [Hf [fs0 Hfs]]; first [discriminate | congruence]]
            | split;
              [intros [H | (e0 & fs0 & H)]; first [discriminate | reflexivity]
              | intros r H; first [discriminate | injection H as <-; eauto]]]).
Qed.

(** [resetPassword] throws the error of hashing, of the user update and
    of the ticket update; otherwise it calls back with [(null, true)]. *)
Lemma resetPassword_outcome (svc : Services) (key pw : string) (w : World) :
  (forall e, fst (resetPassword svc key pw w) = Thrown e
             <-> hash_fresh svc pw = inl e
                 \/ (exists sh, hash_fresh svc pw = inr sh)
                    /\ exists fs, faults w = Some e :: fs \/ faults w = None :: Some e :: fs)
  /\ (forall r, fst (resetPassword svc key pw w) = Returned r -> r = (None, true)).
Proof.
  unfold resetPassword.
  destruct (pass_decryptResetKey svc key) as [derr uid]. run.
  destruct (hash_fresh svc pw) as [e1 | [s h]]; cbn.
  - split; [| discriminate].
    intros e; split.
    + intros H; injection H as <-. now left.
    + intros [H | [[sh H] _]]; congruence.
  - destruct w as [us rs fbs nid ck fs tr]; cbn.
    destruct fs as [| [e |] [| [e' |] fs]]; cbn;
      (split;
       [intros e0; split;
        [first [discriminate
               | intros H; injection H as <-; right; split; eexists; eauto]
        | intros [H | [_ [fs0 [H | H]]]]; first [discriminate | congruence]]
       | intros r H; first [discriminate | injection H as <-; reflexivity]]).
Qed.

(** C1, as the code has it.  Of the errors that arise in the exported
    operations,
    - these reach the caller as the first argument of the callback: an
      LDAP error in [authenticate] (as one of three errors), a failed
      lookup in the local branch of [authenticate] (as the
      invalid-username error), a hashing error there (unchanged), a
      failed lookup in [activateUser] (as the invalid-key error) and in
      [sendResetKey] (as the invalid-details error);
    - these are thrown, and the callback is not called: in
      [activateUser] the error of its update, and in [resetPassword] the
      error of hashing, of the user update and of the ticket update;
    - these are dropped, the callback getting a null error: a failed
      lookup in [isUsernameValid] (answered [false]) and in
      [validateResetKey] (answered ['invalid_key']), a failed count in
      [getUnreadFeedbackCount] (answered 0), the errors of
      [generateResetKey] and of the ticket save in [sendResetKey], the
      error of [decryptResetKey] in [resetPassword], and every store
      error after a successful bind in [authenticate];
    - a failed count in [userExist] is answered with the already-exists
      error and a redirect to the signup page. *)
Theorem errors_forwarded_thrown_or_dropped (config : Config) (svc : Services) :
  (* forwarded *)
  (forall name pass w e,
      AUTH_USE_LDAP config = true -> ldap_bind svc name pass = inl e ->
      exists msg,
        In msg [ERR_AUTH_LDAP_SERVER_DOWN config; ERR_AUTH_FAILED config;
                ERR_AUTH_LDAP_ERROR config]
        /\ fst (authenticate config svc name pass w)
           = Returned (Some (new_Error msg), None))
  /\ (forall name pass w,
         AUTH_USE_LDAP config = false -> next_request_fails w ->
         fst (authenticate config svc name pass w)
         = Returned (Some (new_Error (ERR_AUTH_INVALID_USERNAME config)), None))
  /\ (forall name pass w u e,
         AUTH_USE_LDAP config = false -> ~ next_request_fails w ->
         find (by_username (toLowerCase name)) (users w) = Some u ->
         activated u = true ->
         hash_with_salt svc pass (salt u) = inl e ->
         fst (authenticate config svc name pass w) = Returned (Some e, None))
  /\ (forall id w,
         next_request_fails w ->
         fst (activateUser config id w)
         = Returned (Some (new_Error (ERR_ACTIVATION_INVALID_KEY config)), None))
  /\ (forall name question answer domain ip user_cookie w,
         next_request_fails w ->
         fst (sendResetKey config svc name question answer domain ip user_cookie w)
         = Returned (Some (new_Error (ERR_RESET_INVALID_DETAILS config)), None))
  (* thrown *)
  /\ (forall id w e,
         fst (activateUser config id w) = Thrown e
         <-> find (by_id id) (users w) <> None
             /\ exists fs, faults w = None :: Some e :: fs)
  /\ (forall key pw w e,
         fst (resetPassword svc key pw w) = Thrown e
         <-> hash_fresh svc pw = inl e
             \/ (exists sh, hash_fresh svc pw = inr sh)
                /\ exists fs, faults w = Some e :: fs \/ faults w = None :: Some e :: fs)
  (* dropped *)
  /\ (forall name w,
         next_request_fails w ->
         fst (isUsernameValid config name w) = Returned (None, Some false))
  /\ (forall key w,
         next_request_fails w ->
         fst (validateResetKey config key w) = Returned (None, status_invalid_key))
  /\ (forall last_seen w,
         next_request_fails w ->
         fst (getUnreadFeedbackCount last_seen w) = Returned (None, 0))
  /\ (forall name question answer domain ip user_cookie w u e,
         fst (pass_generateResetKey svc (_id u)) = Some e ->
         healthy w ->
         find (by_security (toLowerCase name) question answer) (users w) = Some u ->
         fst (sendResetKey config svc name question answer domain ip user_cookie w)
         = Returned (None, snd (pass_generateResetKey svc (_id u))))
  /\ (forall name question answer domain ip user_cookie w u e fs,
         faults w = None :: Some e :: fs ->
         find (by_security (toLowerCase name) question answer) (users w) = Some u ->
         fst (sendResetKey config svc name question answer domain ip user_cookie w)
         = Returned (None, snd (pass_generateResetKey svc (_id u))))
  /\ (forall key pw w e,
         fst (pass_decryptResetKey svc key) = Some e ->
         healthy w -> (exists sh, hash_fresh svc pw = inr sh) ->
         fst (resetPassword svc key pw w) = Returned (None, true))
  /\ (forall name pass entry w,
         AUTH_USE_LDAP config = true -> ldap_bind svc name pass = inr entry ->
         exists user, fst (authenticate config svc name pass w) = Returned (None, user))
  (* answered otherwise *)
  /\ (forall req w,
         next_request_fails w ->
         trace (snd (userExist config req w))
         = trace w ++ [EvDb CUser OpCount;
                       EvSessionError (ERR_SIGNUP_ALREADY_EXISTS config);
                       EvRedirect (URL_SIGNUP config)]).
Proof.
  assert (Hhealthy : forall w, healthy w -> ~ next_request_fails w).
  { intros w Hh (e & fs & Hf). unfold healthy in Hh. rewrite Hf in Hh.
    inversion Hh; discriminate. }
  split; [intros name pass w e; apply authenticate_ldap_bind_error |].
  split.
  { intros name pass w Hcfg (e & fs & Hf).
    exact (authenticate_local_store_error config svc name pass w e fs Hcfg Hf). }
  split.
  { intros name pass w u e Hcfg Hworks Hfind Hact Hhash.
    rewrite (authenticate_local_reply _ _ _ _ _ Hcfg), Hfind, Hact, Hhash.
    destruct (faults w) as [| [e0 |] fs] eqn:Hf; try reflexivity.
    exfalso. apply Hworks. now exists e0, fs. }
  split; [intros id w Hf; now apply (failed_first_request config svc w Hf) |].
  split; [intros; now apply (failed_first_request config svc w) |].
  split; [intros id w e; apply (activateUser_outcome config id w) |].
  split; [intros key pw w e; apply (resetPassword_outcome svc key pw w) |].
  split; [intros name w Hf; now apply (failed_first_request config svc w Hf) |].
  split; [intros key w Hf; now apply (failed_first_request config svc w Hf) |].
  split; [intros last_seen w Hf; now apply (failed_first_request config svc w Hf) |].
  split.
  { intros name question answer domain ip user_cookie w u e _ Hh Hfind.
    apply sendResetKey_drops_errors; auto. }
  split.
  { intros name question answer domain ip user_cookie w u e fs Hf Hfind.
    apply sendResetKey_drops_errors; [| exact Hfind].
    intros (e0 & fs0 & H). rewrite Hf in H. discriminate H. }
  split.
  { intros key pw w e _ Hh Hhash.
    destruct (resetPassword_returns svc key pw w Hh Hhash) as [w1 E]. now rewrite E. }
  split; [intros; eapply authenticate_ldap_null_error; eauto |].
  intros req w Hf. now apply (failed_first_request config svc w Hf).
Qed.

(** A run of the amended C1: with alice stored and the update failing,
    [activateUser] throws the store's error; with the lookup failing,
    [validateResetKey] answers ['invalid_key'] with a null error. *)
Lemma errors_forwarded_thrown_or_dropped_witness :
  fst (activateUser (Demo.config false) 1
         (Demo.world [Demo.alice] [] 0 [None; Some Demo.store_error]))
  = Thrown Demo.store_error
  /\ fst (validateResetKey (Demo.config false) "k1"
            (Demo.world [] [Demo.ticket] 0 [Some Demo.store_error]))
     = Returned (None, status_invalid_key).
Proof.
  pose proof (errors_forwarded_thrown_or_dropped (Demo.config false) Demo.svc)
    as (_ & _ & _ & _ & _ & Hthrow & _ & _ & Hdrop & _).
  split.
  - apply Hthrow. split; [discriminate | eexists; reflexivity].
  - apply Hdrop. do 2 eexists. reflexivity.
Defined.

(** C1 as stated fails.  An error of the store is thrown by
    [activateUser] and by [resetPassword], where the callback is never
    called.  An error is dropped, the callback getting a null error, by
    [validateResetKey], [getUnreadFeedbackCount] and [isUsernameValid]
    (failed lookup or count), by [sendResetKey] (failed save, or failed
    [generateResetKey]), by [resetPassword] (failed [decryptResetKey])
    and by [authenticate] with LDAP (failed save after the bind).  A
    failed count in [userExist] is answered like a taken name. *)
Lemma errors_not_all_forwarded :
  fst (activateUser (Demo.config false) 1
         (Demo.world [Demo.alice] [] 0 [None; Some Demo.store_error]))
  = Thrown Demo.store_error
  /\ fst (resetPassword Demo.svc "k1" "newpw"
            (Demo.world [Demo.alice] [Demo.ticket] 0 [Some Demo.store_error]))
     = Thrown Demo.store_error
  /\ fst (validateResetKey (Demo.config false) "k1"
            (Demo.world [] [Demo.ticket] 0 [Some Demo.store_error]))
     = Returned (None, status_invalid_key)
  /\ fst (getUnreadFeedbackCount 20 (Demo.world [] [] 0 [Some Demo.store_error]))
     = Returned (None, 0)
  /\ fst (isUsernameValid (Demo.config false) "alice"
            (Demo.world [Demo.alice] [] 0 [Some Demo.store_error]))
     = Returned (None, Some false)
  /\ fst (sendResetKey (Demo.config false) Demo.svc "alice" "pet" "cat"
            "quiz.example" "10.0.0.1" "alice"
            (Demo.world [Demo.alice] [] 0 [None; Some Demo.store_error]))
     = Returned (None, Some "k1")
  /\ fst (sendResetKey (Demo.config false) Scenario.svc_keys_down "alice" "pet" "cat"
            "quiz.example" "10.0.0.1" "alice" (Demo.world [Demo.alice] [] 0 []))
     = Returned (None, None)
  /\ fst (resetPassword Scenario.svc_keys_down "k1" "newpw"
            (Demo.world [Demo.alice] [Demo.ticket] 0 []))
     = Returned (None, true)
  /\ fst (authenticate (Demo.config true) Demo.svc "erin" "secret"
            (Demo.world [Demo.alice] [] 0 [None; Some Demo.store_error]))
     = Returned (None, None)
  /\ trace (snd (userExist (Demo.config false) (mkRequest None false false "erin")
                   (Demo.world [Demo.alice] [] 0 [Some Demo.store_error])))
     = [EvDb CUser OpCount; EvSessionError "Username already exists";
        EvRedirect "/signup"].
Proof. repeat split. Qed.

(** * Further properties *)

#[local] Hint Unfold requiredAuthentication requiredAdmin : async.

Lemma lower_ascii_idempotent (c : ascii) : lower_ascii (lower_ascii c) = lower_ascii c.
Proof.
  destruct c as [[] [] [] [] [] [] [] []]; reflexivity.
Qed.

Lemma toLowerCase_idempotent (s : string) : toLowerCase (toLowerCase s) = toLowerCase s.
Proof.
  induction s as [| c s IH]; cbn; [reflexivity |].
  now rewrite lower_ascii_idempotent, IH.
Qed.

(** X1: the operations that only look things up write nothing.
    [isUsernameValid], [userExist], [validateResetKey],
    [getUnreadFeedbackCount], the two session gates and the local branch
    of [authenticate] leave the three collections as they found them,
    whatever the store answers. *)
Theorem lookups_leave_store_unchanged (config : Config) (svc : Services) (w : World) :
  (forall name, same_store w (snd (isUsernameValid config name w)))
  /\ (forall req, same_store w (snd (userExist config req w)))
  /\ (forall key, same_store w (snd (validateResetKey config key w)))
  /\ (forall last_seen, same_store w (snd (getUnreadFeedbackCount last_seen w)))
  /\ (forall req, same_store w (snd (requiredAuthentication config req w)))
  /\ (forall req, same_store w (snd (requiredAdmin config req w)))
  /\ (forall name pass,
         AUTH_USE_LDAP config = false ->
         same_store w (snd (authenticate config svc name pass w))).
Proof.
  destruct w as [us rs fbs nid ck fs tr]. unfold same_store.
  repeat split.
  all: try (unfold isUsernameValid, isUsernameValid_cb; run;
            destruct fs as [| [e |] fs]; cbn;
            try destruct (find (by_username (toLowerCase name)) us); reflexivity).
  all: try (unfold userExist, userExist_cb; run;
            destruct fs as [| [e |] fs]; cbn;
            try destruct (length (filter (by_username
                                            (toLowerCase (body_username req))) us));
            reflexivity).
  all: try (rewrite validateResetKey_run; unfold validateResetKey_cb; cbn;
            destruct (match fs with Some _ :: _ => None | _ => _ end) as [entry |];
            [destruct (used entry); run;
             [| destruct (within_validity config ck (date entry))] |];
            reflexivity).
  all: try (unfold getUnreadFeedbackCount, getUnreadFeedbackCount_cb; run;
            destruct fs as [| [e |] fs]; reflexivity).
  all: try (run; destruct (truthy_string (session_user req)); reflexivity).
  all: try (run; destruct (session_is_admin req); [| destruct (xhr req)]; reflexivity).
  all: unfold authenticate; match goal with H : _ = false |- _ => rewrite H end;
    unfold authenticate_local_cb; run;
    destruct fs as [| [e |] fs]; cbn;
    try (destruct (find (by_username (toLowerCase name)) us) as [u |]; cbn;
         [destruct (activated u); cbn;
          [destruct (hash_with_salt svc pass (salt u)) as [e1 | h]; cbn;
           [| destruct (String.eqb h (hash u))] |] |]);
    reflexivity.
Qed.

(** A run of X1 on the scenario store. *)
Lemma lookups_leave_store_unchanged_witness :
  same_store (Scenario.store [])
    (snd (authenticate (Demo.config false) Demo.svc "Alice" "wonder" (Scenario.store []))).
Proof.
  apply (lookups_leave_store_unchanged (Demo.config false) Demo.svc (Scenario.store [])).
  reflexivity.
Defined.

Ltac ldap_run :=
  unfold authenticate, authenticate_ldap_cb, findOrCreateLDAPUser,
    findOrCreateLDAPUser_cb, isUsernameValid, isUsernameValid_cb.

(** X2: with LDAP in use and a successful bind, [authenticate] never
    reports an error of the document store: it always calls back with a
    null error, and the user it hands over is missing exactly when the
    second request to the store (the second lookup, or the save of the
    new record) fails. *)
Theorem authenticate_ldap_hides_store_errors (config : Config) (svc : Services)
  (name pass entry : string) (w : World) :
  AUTH_USE_LDAP config = true ->
  ldap_bind svc name pass = inr entry ->
  exists user,
    fst (authenticate config svc name pass w) = Returned (None, user)
    /\ (user = None <-> exists f e fs, faults w = f :: Some e :: fs).
Proof.
  intros Hcfg Hbind. ldap_run. rewrite Hcfg. run. rewrite Hbind. cbn.
  destruct w as [us rs fbs nid ck fs tr]; cbn.
  destruct fs as [| [e |] [| [e' |] fs]]; cbn;
    try (destruct (find (by_username (toLowerCase name)) us) as [u |] eqn:Hfind;
         cbn; rewrite ?Hfind);
    eexists; (split; [reflexivity |]);
    (split; [intros H; first [discriminate H | do 3 eexists; reflexivity]
            | intros (f0 & e0 & fs0 & H); first [discriminate H | reflexivity]]).
Qed.

(** A run of X2: the bind succeeds, the lookup works and the save
    fails; the callback gets neither an error nor a user. *)
Lemma authenticate_ldap_hides_store_errors_witness :
  fst (authenticate (Demo.config true) Demo.svc "erin" "secret"
         (Scenario.store [None; Some Demo.store_error]))
  = Returned (None, None).
Proof.
  destruct (authenticate_ldap_hides_store_errors (Demo.config true) Demo.svc
              "erin" "secret" "cn=erin" (Scenario.store [None; Some Demo.store_error])
              eq_refl eq_refl) as (user & E & Hnone).
  rewrite E. f_equal. f_equal. apply Hnone. do 3 eexists. reflexivity.
Defined.

(** X3: with LDAP in use, [authenticate] never changes a stored record:
    a run appends at most one user record, named as the caller wrote the
    name, and appends none when the bind fails; tickets and feedback are
    untouched. *)
Theorem authenticate_ldap_appends_at_most_one (config : Config) (svc : Services)
  (name pass : string) (w : World) :
  AUTH_USE_LDAP config = true ->
  exists added,
    users (snd (authenticate config svc name pass w)) = users w ++ added
    /\ length added <= 1
    /\ Forall (fun u => username u = name) added
    /\ ((exists e, ldap_bind svc name pass = inl e) -> added = [])
    /\ resets (snd (authenticate config svc name pass w)) = resets w
    /\ feedbacks (snd (authenticate config svc name pass w)) = feedbacks w.
Proof.
  intros Hcfg. ldap_run. rewrite Hcfg. run.
  destruct w as [us rs fbs nid ck fs tr]; cbn.
  destruct (ldap_bind svc name pass) as [err | entry]; cbn.
  - exists [].
    destruct (String.eqb (err_name err) "ConnectionError"); cbn;
      [| destruct (String.eqb (err_name err) "InvalidCredentialsError"); cbn];
      rewrite app_nil_r; repeat split; auto.
  - destruct fs as [| [e |] [| [e' |] fs]]; cbn;
      try (destruct (find (by_username (toLowerCase name)) us) as [u |]; cbn);
      first [ exists []; rewrite app_nil_r; repeat split; auto;
              intros [e0 H]; discriminate H
            | eexists [_]; repeat split; auto; intros [e0 H]; discriminate H ].
Qed.

(** A run of X3: a wrong password leaves the user collection as it was. *)
Lemma authenticate_ldap_appends_at_most_one_witness :
  users (snd (authenticate (Demo.config true) Demo.svc "erin" "wrong" (Scenario.store [])))
  = users (Scenario.store []).
Proof.
  destruct (authenticate_ldap_appends_at_most_one (Demo.config true) Demo.svc
              "erin" "wrong" (Scenario.store []) eq_refl)
    as (added & E & _ & _ & Hfail & _).
  rewrite E, (Hfail (ex_intro _ Demo.credentials_error eq_refl)).
  apply app_nil_r.
Defined.

(** X4: [findOrCreateLDAPUser] takes a failed lookup for an unknown
    user.  When the lookup of [isUsernameValid] fails and the save
    works, a record with the name is appended and returned with a null
    error, even if a record with that username is already stored. *)
Theorem findOrCreateLDAPUser_failed_lookup_inserts (config : Config) (name : string)
  (w : World) (e : Error) (fs : list (option Error)) :
  faults w = Some e :: fs ->
  hd None fs = None ->
  exists u,
    fst (findOrCreateLDAPUser config name w) = Returned (None, Some u)
    /\ username u = name
    /\ users (snd (findOrCreateLDAPUser config name w)) = users w ++ [u].
Proof.
  intros Hf Hnext.
  unfold findOrCreateLDAPUser, findOrCreateLDAPUser_cb, isUsernameValid,
    isUsernameValid_cb. run.
  destruct w as [us rs fbs nid ck fs' tr]; cbn in *. subst fs'. cbn.
  destruct fs as [| [e' |] fs]; cbn in *; try discriminate;
    eexists; repeat split.
Qed.

(** A run of X4: alice is stored, the lookup fails, and a second record
    named alice is inserted. *)
Lemma findOrCreateLDAPUser_failed_lookup_inserts_witness :
  map username
    (users (snd (findOrCreateLDAPUser (Demo.config true) "alice"
                   (Scenario.store [Some Demo.store_error]))))
  = ["alice"; "dave"; "alice"].
Proof.
  destruct (findOrCreateLDAPUser_failed_lookup_inserts (Demo.config true) "alice"
              (Scenario.store [Some Demo.store_error]) Demo.store_error []
              eq_refl eq_refl) as (u & _ & Hname & Husers).
  rewrite Husers, map_app. cbn. now rewrite Hname.
Defined.

(** X5: the local login is case-insensitive in the name, and only a
    record stored under a lowercase username can log in: two names with
    the same lowercased form get the same reply, and a record handed to
    the callback has the lowercased name as its username. *)
Theorem authenticate_local_case (config : Config) (svc : Services)
  (pass : string) (w : World) :
  AUTH_USE_LDAP config = false ->
  (forall name name',
      toLowerCase name = toLowerCase name' ->
      fst (authenticate config svc name pass w)
      = fst (authenticate config svc name' pass w))
  /\ (forall name u,
         fst (authenticate config svc name pass w) = Returned (None, Some u) ->
         username u = toLowerCase name
         /\ toLowerCase (username u) = username u).
Proof.
  intros Hcfg. split.
  - intros name name' Heq.
    rewrite !authenticate_local_reply by exact Hcfg. now rewrite Heq.
  - intros name u. rewrite authenticate_local_reply by exact Hcfg.
    assert (Hname : forall v, find (by_username (toLowerCase name)) (users w) = Some v ->
                              username v = toLowerCase name).
    { intros v Hv. apply find_some in Hv. destruct Hv as [_ Hq].
      now apply String.eqb_eq in Hq. }
    destruct (faults w) as [| [e |] fs]; try discriminate;
      (destruct (find (by_username (toLowerCase name)) (users w)) as [v |];
       [| discriminate];
       specialize (Hname v eq_refl);
       destruct (activated v); cbn; [| discriminate];
       destruct (hash_with_salt svc pass (salt v)) as [e1 | h]; [discriminate |];
       destruct (String.eqb h (hash v)); [| discriminate];
       intros H; injection H as <-;
       split; [exact Hname | rewrite Hname; apply toLowerCase_idempotent]).
Qed.

(** A run of X5: ["ALICE"] logs in as ["alice"] does. *)
Lemma authenticate_local_case_witness :
  fst (authenticate (Demo.config false) Demo.svc "ALICE" "wonder" (Scenario.store []))
  = Returned (None, Some Demo.alice).
Proof.
  rewrite (proj1 (authenticate_local_case (Demo.config false) Demo.svc "wonder"
                    (Scenario.store []) eq_refl) "ALICE" "alice" eq_refl).
  reflexivity.
Defined.

Lemma filter_length_zero {A} (q : A -> bool) (l : list A) :
  length (filter q l) = 0 <-> forall x, In x l -> q x = false.
Proof.
  induction l as [| a l IH]; cbn.
  - split; [intros _ x [] | reflexivity].
  - destruct (q a) eqn:E; cbn.
    + split; [discriminate |]. intros H. specialize (H a (or_introl eq_refl)). congruence.
    + rewrite IH. split.
      * intros H x [<- | Hx]; auto.
      * intros H x Hx. apply H. now right.
Qed.

(** X6: the signup gate [userExist].  On a working store it calls
    [next()] exactly when no stored username equals the lowercased
    requested name, and otherwise sets the already-exists error and
    redirects to the signup page; a failing count is answered like a
    taken name.  It does exactly one of the two. *)
Theorem userExist_next_iff_free (config : Config) (req : Request) (w : World) :
  let taken := [EvSessionError (ERR_SIGNUP_ALREADY_EXISTS config);
                EvRedirect (URL_SIGNUP config)] in
  let after := trace (snd (userExist config req w)) in
  (healthy w ->
   (forall u, In u (users w) -> username u <> toLowerCase (body_username req)) ->
   after = trace w ++ [EvDb CUser OpCount; EvNext])
  /\ (healthy w ->
      (exists u, In u (users w) /\ username u = toLowerCase (body_username req)) ->
      after = trace w ++ EvDb CUser OpCount :: taken)
  /\ (forall e fs, faults w = Some e :: fs ->
      after = trace w ++ EvDb CUser OpCount :: taken).
Proof.
  intros taken after. subst taken after.
  unfold userExist, userExist_cb. run.
  destruct w as [us rs fbs nid ck fs tr]; unfold healthy; cbn.
  pose proof (filter_length_zero (by_username (toLowerCase (body_username req))) us)
    as Hzero.
  split; [| split].
  - intros Hh Hfree.
    assert (E : length (filter (by_username (toLowerCase (body_username req))) us) = 0).
    { apply Hzero. intros u Hu. apply by_username_false. auto. }
    destruct fs as [| [e |] fs]; cbn; try (now unhealthy);
      rewrite E; cbn; now rewrite <- app_assoc.
  - intros Hh (u & Hu & Hname).
    destruct (length (filter (by_username (toLowerCase (body_username req))) us))
      as [| n] eqn:E.
    { pose proof (proj1 (filter_length_zero _ _) E u Hu) as Hq.
      apply by_username_false in Hq. contradiction. }
    destruct fs as [| [e |] fs]; cbn; try (now unhealthy);
      rewrite ?E; cbn; rewrite <- ?app_assoc; reflexivity.
  - intros e fs' Hf. subst fs. cbn. rewrite <- !app_assoc. reflexivity.
Qed.

(** A run of X6: ["Dave"] is taken (as ["dave"]), ["erin"] is free. *)
Lemma userExist_next_iff_free_witness :
  trace (snd (userExist (Demo.config false) (mkRequest None false false "Dave")
                (Scenario.store [])))
  = [EvDb CUser OpCount; EvSessionError "Username already exists"; EvRedirect "/signup"]
  /\ trace (snd (userExist (Demo.config false) (mkRequest None false false "erin")
                   (Scenario.store [])))
     = [EvDb CUser OpCount; EvNext].
Proof.
  split.
  - apply (proj1 (proj2 (userExist_next_iff_free (Demo.config false)
                           (mkRequest None false false "Dave") (Scenario.store []))));
      [constructor |].
    exists Scenario.dave. split; [right; left; reflexivity | reflexivity].
  - apply (proj1 (userExist_next_iff_free (Demo.config false)
                    (mkRequest None false false "erin") (Scenario.store [])));
      [constructor |].
    intros u [<- | [<- | []]]; discriminate.
Defined.

(** X7: on a working store, [findOrCreateLDAPUser] keeps usernames
    unique and lowercase when it is given a lowercase name: if no two
    stored records share a username before the call, none do after it. *)
Theorem findOrCreateLDAPUser_keeps_unique (config : Config) (name : string) (w : World) :
  toLowerCase name = name ->
  healthy w ->
  NoDup (map username (users w)) ->
  NoDup (map username (users (snd (findOrCreateLDAPUser config name w))))
  /\ (lowercase_names (users w) ->
      lowercase_names (users (snd (findOrCreateLDAPUser config name w)))).
Proof.
  intros Hlow Hh Hnd.
  destruct (find (by_username (toLowerCase name)) (users w)) as [u |] eqn:Hfind.
  - destruct (findOrCreateLDAPUser_found config name w u Hh Hfind) as (w1 & E & Hus & _).
    rewrite E. cbn [snd]. rewrite Hus. auto.
  - destruct (findOrCreateLDAPUser_created config name w Hh Hfind)
      as (u & w1 & E & Hname & Hus & _).
    rewrite E. cbn [snd]. rewrite Hus. split.
    + rewrite map_app. cbn.
      apply NoDup_app; [exact Hnd | repeat constructor; intros [] |].
      intros x Hx [<- | []]. apply in_map_iff in Hx. destruct Hx as (v & Hv & Hin).
      pose proof (proj1 (find_none_iff _ _) Hfind v Hin) as Hq.
      apply by_username_false in Hq. congruence.
    + intros Hall. apply Forall_app. split; [exact Hall |].
      constructor; [congruence | constructor].
Qed.

(** A run of X7: a new directory user joins alice and dave. *)
Lemma findOrCreateLDAPUser_keeps_unique_witness :
  NoDup (map username
           (users (snd (findOrCreateLDAPUser (Demo.config true) "erin"
                          (Scenario.store []))))).
Proof.
  apply (findOrCreateLDAPUser_keeps_unique (Demo.config true) "erin" (Scenario.store []));
    [reflexivity | constructor |].
  cbn. repeat constructor; cbn; intuition discriminate.
Defined.

(** X8: [isUsernameValid] never calls back with an error.  It answers
    [true] exactly when the lookup works and some stored username equals
    the lowercased name; a failed lookup is answered [false]. *)
Theorem isUsernameValid_answer (config : Config) (name : string) (w : World) :
  exists valid,
    fst (isUsernameValid config name w) = Returned (None, Some valid)
    /\ (valid = true <->
        (forall e fs, faults w <> Some e :: fs)
        /\ exists u, In u (users w) /\ username u = toLowerCase name).
Proof.
  unfold isUsernameValid, isUsernameValid_cb. run.
  destruct w as [us rs fbs nid ck fs tr]; cbn.
  assert (Hfound : forall u, find (by_username (toLowerCase name)) us = Some u ->
                             exists v, In v us /\ username v = toLowerCase name).
  { intros u Hu. apply find_some in Hu. destruct Hu as [Hin Hq].
    exists u. split; [exact Hin | now apply String.eqb_eq in Hq]. }
  assert (Hmissing : find (by_username (toLowerCase name)) us = None ->
                     ~ exists v, In v us /\ username v = toLowerCase name).
  { intros Hn (v & Hin & Hv).
    pose proof (proj1 (find_none_iff _ _) Hn v Hin) as Hq.
    apply by_username_false in Hq. contradiction. }
  destruct fs as [| [e |] fs]; cbn.
  2: { exists false. split; [reflexivity |]. split; [discriminate |].
       intros [H _]. now elim (H e fs). }
  all: destruct (find (by_username (toLowerCase name)) us) as [u |]; cbn;
    eexists; (split; [reflexivity |]);
    (split; [intros H; first [discriminate H | split; [discriminate | eauto]]
            | intros [_ H]; first [reflexivity | now elim (Hmissing eq_refl)]]).
Qed.

(** A run of X8: with a failing lookup alice is reported unknown. *)
Lemma isUsernameValid_answer_witness :
  fst (isUsernameValid (Demo.config false) "alice" (Scenario.store [Some Demo.store_error]))
  = Returned (None, Some false).
Proof.
  destruct (isUsernameValid_answer (Demo.config false) "alice"
              (Scenario.store [Some Demo.store_error])) as ([|] & E & Hv).
  - exfalso. apply (proj1 (proj1 Hv eq_refl) Demo.store_error []). reflexivity.
  - exact E.
Defined.

Lemma update_first_map {A B} (p : A -> bool) (f : A -> A) (g : A -> B) (l : list A) :
  (forall x, g (f x) = g x) -> map g (update_first p f l) = map g l.
Proof.
  intros Hg. induction l as [| a l IH]; cbn; [reflexivity |].
  destruct (p a); cbn; [now rewrite Hg | now rewrite IH].
Qed.

(** The lookup [q] after an update of the only document satisfying [p],
    when the update keeps what [q] reads. *)
Lemma find_update_first_sole {A} (p q : A -> bool) (f : A -> A) (l : list A) (u : A) :
  (forall x, q (f x) = q x) ->
  find q l = Some u -> p u = true ->
  (forall v, In v l -> p v = true -> v = u) ->
  find q (update_first p f l) = Some (f u).
Proof.
  intros Hq. induction l as [| a l IH]; cbn; [discriminate |].
  intros Hfind Hpu Hsole.
  destruct (p a) eqn:Hpa.
  - assert (a = u) by (apply Hsole; auto). subst a.
    cbn. rewrite Hq. destruct (q u) eqn:E; [reflexivity |].
    apply find_some in Hfind. destruct Hfind. congruence.
  - cbn. destruct (q a) eqn:Hqa.
    + injection Hfind as ->. congruence.
    + apply IH; auto.
Qed.

Lemma set_activated_same (u : User) : activated u = true -> set_activated true u = u.
Proof. destruct u; cbn; now intros ->. Qed.

(** After the update of [activateUser], the record the lookup by [_id]
    returns is activated. *)
Lemma find_by_id_after_activation (id : ObjectId) (l : list User) :
  find (by_id id) (update_first (by_id_inactive id) (set_activated true) l)
  = option_map (set_activated true) (find (by_id id) l).
Proof.
  induction l as [| a l IH]; cbn; [reflexivity |].
  unfold by_id_inactive at 1. unfold by_id at 2.
  destruct (Nat.eqb (_id a) id) eqn:Hid; cbn.
  - destruct (activated a) eqn:Hact; cbn.
    + unfold by_id. rewrite Hid. cbn. now rewrite set_activated_same.
    + unfold by_id. cbn. now rewrite Hid.
  - unfold by_id at 1. now rewrite Hid.
Qed.

(** [activateUser] on a working store, for a known id. *)
Lemma activateUser_known_run (config : Config) (id : ObjectId) (w : World) (u : User) :
  healthy w ->
  find (by_id id) (users w) = Some u ->
  exists w1,
    activateUser config id w
    = (Returned (None, Some (if existsb (by_id_inactive id) (users w) then 1 else 0)), w1)
    /\ users w1 = update_first (by_id_inactive id) (set_activated true) (users w)
    /\ resets w1 = resets w /\ feedbacks w1 = feedbacks w
    /\ healthy w1.
Proof.
  intros Hh Hfind. unfold activateUser, activateUser_cb. run.
  destruct w as [us rs fbs nid ck fs tr]; unfold healthy in *; cbn in *.
  destruct fs as [| [e |] [| [e' |] fs]]; cbn; rewrite ?Hfind; cbn;
    try (now unhealthy);
    eexists; (split; [reflexivity |]); repeat split; cbn;
    repeat match goal with
           | H : Forall _ (_ :: _) |- _ => inversion H; clear H; subst
           end; auto.
Qed.

(** X9: what [activateUser] writes.  For a known id on a working store
    it calls back with a null error and a count of at most one; the
    record the lookup by [_id] then returns is the same record with
    [activated] set, no username changes, and tickets and feedback are
    untouched.  For an unknown id, or when the lookup fails, nothing is
    written. *)
Theorem activateUser_effect (config : Config) (id : ObjectId) (w : World) :
  (forall u,
      healthy w ->
      find (by_id id) (users w) = Some u ->
      exists n,
        fst (activateUser config id w) = Returned (None, Some n)
        /\ n <= 1
        /\ find (by_id id) (users (snd (activateUser config id w)))
           = Some (set_activated true u)
        /\ map username (users (snd (activateUser config id w)))
           = map username (users w)
        /\ resets (snd (activateUser config id w)) = resets w
        /\ feedbacks (snd (activateUser config id w)) = feedbacks w)
  /\ (find (by_id id) (users w) = None \/ (exists e fs, faults w = Some e :: fs) ->
      same_store w (snd (activateUser config id w))).
Proof.
  split.
  - intros u Hh Hfind.
    destruct (activateUser_known_run config id w u Hh Hfind)
      as (w1 & E & Hus & Hrs & Hfb & _).
    rewrite E. cbn [fst snd]. eexists. split; [reflexivity |].
    split; [destruct (existsb _ _); auto |].
    rewrite Hus, find_by_id_after_activation, Hfind.
    repeat split; auto.
    apply update_first_map. intros x. reflexivity.
  - unfold activateUser, activateUser_cb, same_store. run.
    destruct w as [us rs fbs nid ck fs tr]; cbn.
    intros [Hnone | (e & fs' & Hf)].
    + destruct fs as [| [e |] fs]; cbn; rewrite ?Hnone; cbn; auto.
    + subst fs. cbn. auto.
Qed.

(** A run of X9: dave follows his activation link. *)
Lemma activateUser_effect_witness :
  fst (activateUser (Demo.config false) 3 (Scenario.store [])) = Returned (None, Some 1)
  /\ find (by_id 3) (users (snd (activateUser (Demo.config false) 3 (Scenario.store []))))
     = Some (set_activated true Scenario.dave).
Proof.
  destruct (proj1 (activateUser_effect (Demo.config false) 3 (Scenario.store []))
              Scenario.dave (Forall_nil _) eq_refl)
    as (n & E & _ & Hfind & _).
  split; [reflexivity | exact Hfind].
Defined.

(** X10: activation unlocks the local login.  A stored user with a
    pending activation is refused with [ERR_AUTH_ACTIVATION_PENDING];
    once [activateUser] has run with that user's [_id], the same name
    and password are accepted and the activated record is handed over. *)
Theorem activateUser_then_authenticate (config : Config) (svc : Services)
  (name pass : string) (w : World) (u : User) :
  AUTH_USE_LDAP config = false ->
  healthy w ->
  find (by_username (toLowerCase name)) (users w) = Some u ->
  activated u = false ->
  only_id u (users w) ->
  hash_with_salt svc pass (salt u) = inr (hash u) ->
  fst (authenticate config svc name pass w)
  = Returned (Some (new_Error (ERR_AUTH_ACTIVATION_PENDING config)), None)
  /\ fst (authenticate config svc name pass (snd (activateUser config (_id u) w)))
     = Returned (None, Some (set_activated true u)).
Proof.
  intros Hcfg Hh Hfind Hpending Honly Hhash.
  split.
  - rewrite (authenticate_local_run _ _ _ _ _ Hcfg Hh), Hfind.
    unfold authenticate_local_cb. rewrite Hpending. reflexivity.
  - pose proof (find_some _ _ Hfind) as [Hin Hq].
    assert (Hid : find (by_id (_id u)) (users w) <> None).
    { intros Hn. pose proof (proj1 (find_none_iff _ _) Hn u Hin) as Hf.
      unfold by_id in Hf. now rewrite Nat.eqb_refl in Hf. }
    destruct (find (by_id (_id u)) (users w)) as [v |] eqn:Hv; [| congruence].
    destruct (activateUser_known_run config (_id u) w v Hh Hv)
      as (w1 & E & Hus & _ & _ & Hh1).
    rewrite E. cbn [snd].
    rewrite (authenticate_local_run _ _ _ _ _ Hcfg Hh1), Hus.
    rewrite (find_update_first_sole (by_id_inactive (_id u))
               (by_username (toLowerCase name)) (set_activated true) (users w) u).
    + unfold authenticate_local_cb. cbn. run. rewrite Hhash. cbn.
      now rewrite String.eqb_refl.
    + reflexivity.
    + exact Hfind.
    + unfold by_id_inactive. now rewrite Nat.eqb_refl, Hpending.
    + intros x Hx Hp. apply Honly; [exact Hx |].
      unfold by_id_inactive in Hp. apply andb_prop in Hp. destruct Hp as [Hp _].
      now apply Nat.eqb_eq in Hp.
Qed.

(** A run of X10: dave activates his account and logs in. *)
Lemma activateUser_then_authenticate_witness :
  fst (authenticate (Demo.config false) Demo.svc "Dave" "hunter2"
         (snd (activateUser (Demo.config false) 3 (Scenario.store []))))
  = Returned (None, Some (set_activated true Scenario.dave)).
Proof.
  apply (activateUser_then_authenticate (Demo.config false) Demo.svc "Dave" "hunter2"
           (Scenario.store []) Scenario.dave); try reflexivity.
  - constructor.
  - intros v [<- | [<- | []]]; [discriminate | reflexivity].
Defined.

(** The helpers below restate, for use in the compositions, what a
    working lookup of [validateResetKey] answers. *)
Lemma validateResetKey_absent (config : Config) (key : string) (w : World) :
  (forall p, In p (resets w) -> reset_key p <> Some key) ->
  fst (validateResetKey config key w) = Returned (None, status_invalid_key).
Proof.
  intros Hno. rewrite validateResetKey_run.
  assert (E : find (by_reset_key key) (resets w) = None).
  { apply find_none_iff. intros p Hp. apply by_reset_key_false. auto. }
  rewrite E. now destruct (faults w) as [| [e |] fs].
Qed.

Lemma validateResetKey_found (config : Config) (key : string) (w : World)
  (entry : PasswordReset) :
  healthy w ->
  find (by_reset_key key) (resets w) = Some entry ->
  fst (validateResetKey config key w)
  = Returned (None,
              if used entry then status_used
              else if within_validity config (clock w) (date entry) then status_success
                   else status_failure).
Proof.
  intros Hh Hfind. rewrite validateResetKey_run.
  assert (E : match faults w with
              | Some _ :: _ => None
              | _ => find (by_reset_key key) (resets w)
              end = Some entry).
  { destruct (healthy_cases w Hh) as [-> | (fs & -> & _)]; exact Hfind. }
  rewrite E. unfold validateResetKey_cb.
  destruct (used entry); [reflexivity |]. run.
  destruct (within_validity config (clock w) (date entry)); reflexivity.
Qed.

(** [sendResetKey] on a working store, when the details match [u]. *)
Lemma sendResetKey_run (config : Config) (svc : Services)
  (name question answer domain ip user_cookie : string) (w : World) (u : User) :
  healthy w ->
  find (by_security (toLowerCase name) question answer) (users w) = Some u ->
  let key := snd (pass_generateResetKey svc (_id u)) in
  exists w1,
    sendResetKey config svc name question answer domain ip user_cookie w
    = (Returned (None, key), w1)
    /\ resets w1 = resets w ++ [mkPasswordReset (next_id w) key (Some (_id u)) (clock w)
                                  (PasswordReset_default_used config)]
    /\ users w1 = users w /\ feedbacks w1 = feedbacks w
    /\ trace w1 = trace w ++ [EvDb CUser OpFindOne; EvDb CPasswordReset OpSave;
                              EvMail domain ip user_cookie name key]
    /\ healthy w1.
Proof.
  intros Hh Hfind key. subst key. unfold sendResetKey. run.
  destruct w as [us rs fbs nid ck fs tr]; unfold healthy in *; cbn in *.
  destruct (pass_generateResetKey svc (_id u)) as [gerr k] eqn:Hgen.
  destruct fs as [| [e |] [| [e' |] fs]]; cbn; rewrite ?Hfind; cbn; rewrite ?Hgen; cbn;
    try (now unhealthy);
    eexists; (split; [reflexivity |]); cbn; rewrite <- ?app_assoc; repeat split;
    repeat match goal with
           | H : Forall _ (_ :: _) |- _ => inversion H; clear H; subst
           end; auto.
Qed.



(** X12: [sendResetKey] ignores a failed save of the ticket.  When the
    lookup works and the save fails, the key is still mailed and handed
    to the callback with a null error, while no ticket is stored; a key
    no stored ticket carries is then answered ['invalid_key']. *)
Theorem sendResetKey_failed_save (config : Config) (svc : Services)
  (name question answer domain ip user_cookie : string) (w : World)
  (u : User) (e : Error) (fs : list (option Error)) :
  faults w = None :: Some e :: fs ->
  find (by_security (toLowerCase name) question answer) (users w) = Some u ->
  let run := sendResetKey config svc name question answer domain ip user_cookie w in
  let key := snd (pass_generateResetKey svc (_id u)) in
  fst run = Returned (None, key)
  /\ In (EvMail domain ip user_cookie name key) (trace (snd run))
  /\ same_store w (snd run)
  /\ (forall k w2,
         key = Some k ->
         (forall p, In p (resets w) -> reset_key p <> Some k) ->
         resets w2 = resets (snd run) ->
         fst (validateResetKey config k w2) = Returned (None, status_invalid_key)).
Proof.
  intros Hf Hfind run key. subst run key.
  assert (Hrun :
    fst (sendResetKey config svc name question answer domain ip user_cookie w)
    = Returned (None, snd (pass_generateResetKey svc (_id u)))
    /\ In (EvMail domain ip user_cookie name (snd (pass_generateResetKey svc (_id u))))
          (trace (snd (sendResetKey config svc name question answer domain ip
                         user_cookie w)))
    /\ same_store w
         (snd (sendResetKey config svc name question answer domain ip user_cookie w))).
  { unfold sendResetKey, same_store. run.
    destruct w as [us rs fbs nid ck fs' tr]; cbn in *. subst fs'. cbn.
    rewrite Hfind. cbn.
    destruct (pass_generateResetKey svc (_id u)) as [gerr k]. cbn.
    repeat split. apply in_or_app. right. now left. }
  destruct Hrun as (Hreply & Hmail & Hsame).
  repeat split; try assumption; try apply Hsame.
  intros k w2 _ Hno Hrs. apply validateResetKey_absent.
  rewrite Hrs. destruct Hsame as (_ & -> & _). exact Hno.
Qed.

(** A run of X12: the key ["k1"] is mailed, and is unknown afterwards. *)
Lemma sendResetKey_failed_save_witness :
  let w := Scenario.store [None; Some Demo.store_error] in
  let w1 := snd (sendResetKey (Demo.config false) Demo.svc "Alice" "pet" "cat"
                   "quiz.example" "10.0.0.1" "alice" w) in
  fst (validateResetKey (Demo.config false) "k1" w1) = Returned (None, status_invalid_key).
Proof.
  intros w w1.
  apply (proj2 (proj2 (proj2
           (sendResetKey_failed_save (Demo.config false) Demo.svc "Alice" "pet" "cat"
              "quiz.example" "10.0.0.1" "alice" w Demo.alice Demo.store_error []
              eq_refl eq_refl))) "k1" w1); [reflexivity | | reflexivity].
  intros p [].
Defined.

Lemma resetPassword_keeps_healthy (svc : Services) (key pw : string) (w : World) :
  healthy w -> healthy (snd (resetPassword svc key pw w)).
Proof.
  intros Hh. unfold resetPassword.
  destruct (pass_decryptResetKey svc key) as [derr uid]. run.
  destruct (hash_fresh svc pw) as [e | [s h]]; cbn; [exact Hh |].
  destruct w as [us rs fbs nid ck fs tr]; unfold healthy in *; cbn in *.
  destruct fs as [| [e |] [| [e' |] fs]]; cbn; try (now unhealthy);
    repeat match goal with
           | H : Forall _ (_ :: _) |- _ => inversion H; clear H; subst
           end; auto.
Qed.

(** X13: the life of a ticket.  After [sendResetKey] has issued the key
    [k] (no earlier ticket carries it, and new tickets start unused),
    [validateResetKey] answers ['success'] at every time whose distance
    to the issue time is within [RESET_VALIDITY]; a [resetPassword] with
    the key then goes through, and from then on the key is answered
    ['used'] at every time. *)
Theorem ticket_life_cycle (config : Config) (svc : Services)
  (name question answer domain ip user_cookie k : string) (w : World) (u : User) :
  healthy w ->
  find (by_security (toLowerCase name) question answer) (users w) = Some u ->
  snd (pass_generateResetKey svc (_id u)) = Some k ->
  (forall p, In p (resets w) -> reset_key p <> Some k) ->
  PasswordReset_default_used config = false ->
  let w1 := snd (sendResetKey config svc name question answer domain ip user_cookie w) in
  (forall t,
      PrimFloat.leb (time_diff t (clock w)) (RESET_VALIDITY config) = true ->
      fst (validateResetKey config k (set_clock t w1)) = Returned (None, status_success))
  /\ (forall t pw,
         (exists sh, hash_fresh svc pw = inr sh) ->
         exists w2,
           resetPassword svc k pw (set_clock t w1) = (Returned (None, true), w2)
           /\ forall t',
               fst (validateResetKey config k (set_clock t' w2))
               = Returned (None, status_used)).
Proof.
  intros Hh Hfind Hkey Hfresh Hunused w1.
  destruct (sendResetKey_run config svc name question answer domain ip user_cookie
              w u Hh Hfind) as (w1' & E & Hrs & _ & _ & _ & Hh1).
  assert (Hw1 : w1 = w1') by (subst w1; now rewrite E). clearbody w1. subst w1'.
  rewrite Hkey, Hunused in Hrs.
  set (ticket := mkPasswordReset (next_id w) (Some k) (Some (_id u)) (clock w) false) in Hrs.
  assert (Hticket : find (by_reset_key k) (resets w1) = Some ticket).
  { rewrite Hrs. apply find_app_new.
    - apply find_none_iff. intros p Hp. apply by_reset_key_false. auto.
    - unfold by_reset_key. cbn. apply String.eqb_refl. }
  split.
  - intros t Hvalid.
    rewrite (validateResetKey_found config k (set_clock t w1) ticket Hh1 Hticket).
    cbn. unfold within_validity. now rewrite Hvalid.
  - intros t pw Hhash.
    destruct (resetPassword_returns svc k pw (set_clock t w1) Hh1 Hhash) as [w2 Hrun].
    exists w2. split; [exact Hrun |].
    intros t'.
    pose proof (resetPassword_keeps_healthy svc k pw (set_clock t w1) Hh1) as Hh2.
    rewrite Hrun in Hh2. cbn [snd] in Hh2.
    destruct (resetPassword_returned _ _ _ _ _ _ Hrun) as (_ & _ & Hrs2).
    assert (Hused : find (by_reset_key k) (resets (set_clock t' w2))
                    = Some (set_used true ticket)).
    { cbn. rewrite Hrs2. cbn. rewrite find_update_first_used, Hticket. reflexivity. }
    rewrite (validateResetKey_found config k (set_clock t' w2) _ Hh2 Hused).
    reflexivity.
Qed.

(** A run of X13: alice's key is valid an hour after it was issued, and
    used once the password is reset. *)
Lemma ticket_life_cycle_witness :
  let w1 := snd (sendResetKey (Demo.config false) Demo.svc "Alice" "pet" "cat"
                   "quiz.example" "10.0.0.1" "alice" (Scenario.store [])) in
  fst (validateResetKey (Demo.config false) "k1" (set_clock 3601000 w1))
  = Returned (None, status_success)
  /\ exists w2,
      resetPassword Demo.svc "k1" "tulip" (set_clock 3601000 w1)
      = (Returned (None, true), w2)
      /\ fst (validateResetKey (Demo.config false) "k1" (set_clock 3602000 w2))
         = Returned (None, status_used).
Proof.
  intros w1.
  assert (Hfresh : forall p, In p (resets (Scenario.store [])) -> reset_key p <> Some "k1")
    by (intros p []).
  pose proof (ticket_life_cycle (Demo.config false) Demo.svc "Alice" "pet" "cat"
                "quiz.example" "10.0.0.1" "alice" "k1" (Scenario.store []) Demo.alice
                (Forall_nil _) eq_refl eq_refl Hfresh eq_refl) as [Hvalid Hreset].
  split.
  - apply Hvalid. reflexivity.
  - destruct (Hreset 3601000%Z "tulip") as (w2 & Hrun & Hused).
    + eexists. reflexivity.
    + exists w2. split; [exact Hrun | apply Hused].
Defined.

(** X14: the new password works after [resetPassword].  When the key
    decrypts to the [_id] of an activated record (the only one with that
    [_id]) and the hashing helper is coherent, [resetPassword] on a
    working store ends in its callback, and the local login then accepts
    the new password and refuses every password that hashes, with the
    new salt, to something else. *)
Theorem resetPassword_then_authenticate (config : Config) (svc : Services)
  (key name pw : string) (w : World) (u : User) (s h : string) :
  AUTH_USE_LDAP config = false ->
  healthy w ->
  snd (pass_decryptResetKey svc key) = Some (_id u) ->
  find (by_username (toLowerCase name)) (users w) = Some u ->
  only_id u (users w) ->
  activated u = true ->
  hash_fresh svc pw = inr (s, h) ->
  coherent_hash svc pw ->
  let w1 := snd (resetPassword svc key pw w) in
  fst (resetPassword svc key pw w) = Returned (None, true)
  /\ fst (authenticate config svc name pw w1) = Returned (None, Some (set_salt_hash s h u))
  /\ (forall other h',
         hash_with_salt svc other s = inr h' -> h' <> h ->
         fst (authenticate config svc name other w1)
         = Returned (Some (new_Error (ERR_AUTH_INVALID_PASSWORD config)), None)).
Proof.
  intros Hcfg Hh Hdec Hfind Honly Hact Hfresh Hcoh w1.
  destruct (resetPassword_returns svc key pw w Hh (ex_intro _ (s, h) Hfresh)) as [w1' Hrun].
  pose proof (resetPassword_keeps_healthy svc key pw w Hh) as Hh1.
  assert (Hw1 : w1 = w1') by (subst w1; now rewrite Hrun). clearbody w1. subst w1'.
  rewrite Hrun in Hh1 |- *. cbn [fst snd] in *.
  destruct (resetPassword_returned _ _ _ _ _ _ Hrun) as (_ & (s' & h' & Hsh & Hus) & _).
  assert (s' = s /\ h' = h) as [-> ->] by (split; congruence).
  rewrite Hdec in Hus.
  assert (Hstored : find (by_username (toLowerCase name)) (users w1)
                    = Some (set_salt_hash s h u)).
  { rewrite Hus. apply find_update_first_sole; auto.
    - cbn. apply Nat.eqb_refl.
    - intros v Hv Hp. apply Honly; [exact Hv |]. cbn in Hp. now apply Nat.eqb_eq in Hp. }
  split; [reflexivity |]. split.
  - rewrite (authenticate_local_run _ _ _ _ _ Hcfg Hh1), Hstored.
    unfold authenticate_local_cb. cbn. rewrite Hact. run.
    rewrite (Hcoh s h Hfresh). cbn. now rewrite String.eqb_refl.
  - intros other h2 Hother Hne.
    rewrite (authenticate_local_run _ _ _ _ _ Hcfg Hh1), Hstored.
    unfold authenticate_local_cb. cbn. rewrite Hact. run.
    rewrite Hother. cbn. apply String.eqb_neq in Hne. now rewrite Hne.
Qed.

(** A run of X14: alice resets her password to ["tulip"]; ["tulip"] is
    accepted and the old password is refused. *)
Lemma resetPassword_then_authenticate_witness :
  let w := mkWorld [Demo.alice; Scenario.dave] [Demo.ticket] [] 10 1000 [] [] in
  let w1 := snd (resetPassword Demo.svc "k1" "tulip" w) in
  fst (authenticate (Demo.config false) Demo.svc "alice" "tulip" w1)
  = Returned (None, Some (set_salt_hash "s9" "s9:tulip" Demo.alice))
  /\ fst (authenticate (Demo.config false) Demo.svc "alice" "wonder" w1)
     = Returned (Some (new_Error "Invalid password"), None).
Proof.
  intros w w1.
  assert (Honly : only_id Demo.alice (users w))
    by (intros v [<- | [<- | []]]; [reflexivity | discriminate]).
  assert (Hcoh : coherent_hash Demo.svc "tulip")
    by (intros s h H; injection H as <- <-; reflexivity).
  pose proof (resetPassword_then_authenticate (Demo.config false) Demo.svc "k1" "alice"
                "tulip" w Demo.alice "s9" "s9:tulip" eq_refl (Forall_nil _) eq_refl
                eq_refl Honly eq_refl eq_refl Hcoh) as (_ & Hnew & Hold).
  split; [exact Hnew |].
  apply (Hold "wonder" "s9:wonder"); [reflexivity | discriminate].
Defined.

(** X15: [resetPassword] never consults the ticket.  Whatever tickets
    are stored (none with the key, a used one, an expired one), the reply
    and the resulting user collection are the same. *)
Theorem resetPassword_ignores_ticket_state (svc : Services) (key pw : string)
  (w : World) (tickets : list PasswordReset) :
  fst (resetPassword svc key pw (set_resets tickets w)) = fst (resetPassword svc key pw w)
  /\ users (snd (resetPassword svc key pw (set_resets tickets w)))
     = users (snd (resetPassword svc key pw w)).
Proof.
  unfold resetPassword.
  destruct (pass_decryptResetKey svc key) as [derr uid]. run.
  destruct (hash_fresh svc pw) as [e | [s h]]; cbn; [split; reflexivity |].
  destruct w as [us rs fbs nid ck fs tr]; cbn.
  destruct fs as [| [e |] [| [e' |] fs]]; cbn; split; reflexivity.
Qed.

(** X16: [resetPassword] is not atomic.  When the user update works and
    the ticket update fails, the error is thrown, the password has
    already been replaced, and the tickets are as before, so the key
    keeps whatever status it had. *)
Theorem resetPassword_failed_ticket_update (svc : Services) (key pw : string)
  (w : World) (e : Error) (fs : list (option Error)) (s h : string) :
  faults w = None :: Some e :: fs ->
  hash_fresh svc pw = inr (s, h) ->
  fst (resetPassword svc key pw w) = Thrown e
  /\ users (snd (resetPassword svc key pw w))
     = update_first (by_opt_id (snd (pass_decryptResetKey svc key)))
         (set_salt_hash s h) (users w)
  /\ resets (snd (resetPassword svc key pw w)) = resets w.
Proof.
  intros Hf Hhash. unfold resetPassword.
  destruct (pass_decryptResetKey svc key) as [derr uid]. run.
  rewrite Hhash. cbn.
  destruct w as [us rs fbs nid ck fs' tr]; cbn in *. subst fs'. cbn.
  repeat split.
Qed.

(** A run of X16: the ticket update fails; alice's password is changed
    and her key is still valid. *)
Lemma resetPassword_failed_ticket_update_witness :
  let w := mkWorld [Demo.alice] [Demo.ticket] [] 10 1000 [None; Some Demo.store_error] [] in
  let w1 := snd (resetPassword Demo.svc "k1" "tulip" w) in
  fst (resetPassword Demo.svc "k1" "tulip" w) = Thrown Demo.store_error
  /\ users w1 = [set_salt_hash "s9" "s9:tulip" Demo.alice]
  /\ fst (validateResetKey (Demo.config false) "k1" w1) = Returned (None, status_success).
Proof.
  intros w w1.
  destruct (resetPassword_failed_ticket_update Demo.svc "k1" "tulip" w
              Demo.store_error [] "s9" "s9:tulip" eq_refl eq_refl) as (Hthrow & Hus & Hrs).
  split; [exact Hthrow |]. split; [exact Hus | reflexivity].
Defined.

Lemma filter_length_mono {A} (q1 q2 : A -> bool) (l : list A) :
  (forall x, q2 x = true -> q1 x = true) ->
  length (filter q2 l) <= length (filter q1 l).
Proof.
  intros Himp. induction l as [| a l IH]; cbn; [constructor |].
  destruct (q2 a) eqn:E2.
  - rewrite (Himp a E2). cbn. now apply le_n_S.
  - destruct (q1 a); cbn; [now apply le_S | exact IH].
Qed.

(** X17: the unread count shrinks as [last_seen] advances and never
    exceeds the number of stored feedback documents. *)
Theorem getUnreadFeedbackCount_antitone (seen seen' : Z) (w : World) :
  (seen <= seen')%Z ->
  exists n n',
    fst (getUnreadFeedbackCount seen w) = Returned (None, n)
    /\ fst (getUnreadFeedbackCount seen' w) = Returned (None, n')
    /\ n' <= n
    /\ n <= length (feedbacks w).
Proof.
  intros Hle. unfold getUnreadFeedbackCount, getUnreadFeedbackCount_cb. run.
  destruct w as [us rs fbs nid ck fs tr]; cbn.
  destruct fs as [| [e |] fs]; cbn; do 2 eexists;
    (split; [reflexivity |]); (split; [reflexivity |]);
    first [ split; [constructor | apply Nat.le_0_l]
          | split; [| apply filter_length_le];
            apply filter_length_mono; unfold date_gte; intros f Hf;
            apply Z.leb_le; apply Z.leb_le in Hf;
            exact (Z.le_trans _ _ _ Hle Hf) ].
Qed.

(** A run of X17: of the notes dated 10, 20 and 30, three are unread
    since 5 and one since 25. *)
Lemma getUnreadFeedbackCount_antitone_witness :
  exists n n',
    fst (getUnreadFeedbackCount 5 (Scenario.store [])) = Returned (None, n)
    /\ fst (getUnreadFeedbackCount 25 (Scenario.store [])) = Returned (None, n')
    /\ n' <= n
    /\ n <= 3.
Proof.
  apply (getUnreadFeedbackCount_antitone 5 25 (Scenario.store [])).
  discriminate.
Defined.

(** X18: the two session gates.  [requiredAuthentication] reaches
    [next()] exactly when the session holds a user that is not the empty
    string, and otherwise (no user, or the empty string) sets the
    not-logged-in error and redirects to the login page;
    [requiredAdmin] reaches [next()] exactly when the session is an
    administrator's, and otherwise answers with status 403 followed by
    one body: JSON for an XHR request, the 403 template for any other. *)
Theorem session_gates (config : Config) (req : Request) (w : World) :
  (exists events,
      trace (snd (requiredAuthentication config req w)) = trace w ++ events
      /\ (existsb is_next_event events = true
          <-> exists user, session_user req = Some user /\ user <> "")
      /\ (session_user req = None \/ session_user req = Some "" ->
          events = [EvSessionError (ERR_AUTH_NOT_LOGGED_IN config);
                    EvRedirect (URL_LOGIN config)]))
  /\ (exists events,
         trace (snd (requiredAdmin config req w)) = trace w ++ events
         /\ (existsb is_next_event events = true <-> session_is_admin req = true)
         /\ (session_is_admin req = false ->
             events = [EvStatus 403;
                       if xhr req then EvJson else EvRender (TEMPL_403 config)])).
Proof.
  run. split.
  - destruct (session_user req) as [[| c user] |]; cbn; rewrite <- ?app_assoc;
      eexists; (split; [reflexivity |]); cbn.
    + split; [| reflexivity].
      split; [discriminate | intros (user & H & Hne); congruence].
    + split; [| intros [H | H]; discriminate H].
      split; [intros _; eexists; split; [reflexivity | discriminate] | reflexivity].
    + split; [| reflexivity].
      split; [discriminate | intros (user & H & _); discriminate H].
  - destruct (session_is_admin req); [| destruct (xhr req)]; cbn; rewrite <- ?app_assoc;
      eexists; (split; [reflexivity |]); cbn;
      (split; [split; intros H; first [reflexivity | discriminate H]
              | intros H; first [discriminate H | reflexivity]]).
Qed.

(** A run of X18: a session whose user is the empty string is sent to
    the login page, and an anonymous XHR request to an admin route gets
    403 and JSON. *)
Lemma session_gates_witness :
  trace (snd (requiredAuthentication (Demo.config false)
                (mkRequest (Some "") false false "") (Scenario.store [])))
  = [EvSessionError "Not logged in"; EvRedirect "/login"]
  /\ trace (snd (requiredAdmin (Demo.config false) (mkRequest None false true "")
                   (Scenario.store [])))
     = [EvStatus 403; EvJson].
Proof.
  split.
  - destruct (proj1 (session_gates (Demo.config false)
                       (mkRequest (Some "") false false "") (Scenario.store [])))
      as (events & E & _ & Hdenied).
    rewrite E, (Hdenied (or_intror eq_refl)). reflexivity.
  - destruct (proj2 (session_gates (Demo.config false) (mkRequest None false true "")
                       (Scenario.store []))) as (events & E & _ & Hdenied).
    rewrite E, (Hdenied eq_refl). reflexivity.
Defined.

(** X19: hashing is reserved for activated accounts.  In the local
    branch of [authenticate] the password is hashed only when the lookup
    returned an activated record; for an unknown name, a pending
    activation or a failed lookup no hash is computed. *)
Theorem authenticate_local_hashes_only_activated (config : Config) (svc : Services)
  (name pass : string) (w : World) :
  AUTH_USE_LDAP config = false ->
  exists events,
    trace (snd (authenticate config svc name pass w)) = trace w ++ events
    /\ (existsb is_hash_event events = true <->
        (forall e fs, faults w <> Some e :: fs)
        /\ exists u, find (by_username (toLowerCase name)) (users w) = Some u
                     /\ activated u = true).
Proof.
  intros Hcfg. local_run Hcfg.
  destruct w as [us rs fbs nid ck fs tr]; cbn.
  destruct fs as [| [e |] fs]; cbn.
  2: { rewrite <- app_assoc. eexists. split; [reflexivity |]. cbn.
       split; [discriminate |].
       intros [H _]. now elim (H e fs). }
  all: destruct (find (by_username (toLowerCase name)) us) as [u |]; cbn;
    [destruct (activated u) eqn:Hact; cbn;
     [destruct (hash_with_salt svc pass (salt u)) as [e1 | h]; cbn;
      [| destruct (String.eqb h (hash u))] |] |];
    cbn; rewrite <- ?app_assoc; cbn [app];
    eexists; (split; [reflexivity |]); cbn;
    (split;
     [intros H; first [discriminate H | split; [discriminate | eauto]]
     | intros [_ (v & Hv & Hav)];
       first [reflexivity | discriminate Hv | injection Hv as <-; congruence]]).
Qed.

(** A run of X19: dave's activation is pending, no hash is computed. *)
Lemma authenticate_local_hashes_only_activated_witness :
  existsb is_hash_event
    (trace (snd (authenticate (Demo.config false) Demo.svc "dave" "hunter2"
                   (Scenario.store []))))
  = false.
Proof.
  destruct (authenticate_local_hashes_only_activated (Demo.config false) Demo.svc
              "dave" "hunter2" (Scenario.store []) eq_refl) as (events & E & Hiff).
  rewrite E. cbn.
  destruct (existsb is_hash_event events) eqn:Hex; [| reflexivity].
  destruct (proj1 Hiff eq_refl) as (_ & u & Hu & Hact).
  injection Hu as <-. discriminate Hact.
Defined.

Lemma leb_nan_right (x : float) : PrimFloat.leb x nan = false.
Proof.
  rewrite leb_spec. change (Prim2SF nan) with S754_nan.
  unfold SFleb, SFcompare. destruct (Prim2SF x) as [| | | ? ? ?]; try reflexivity.
  all: destruct s; reflexivity.
Qed.

(** X20: a [RESET_VALIDITY] that is not a number validates nothing.
    When the configured validity is [NaN] (what a missing value becomes
    in the comparison), no key is ever answered ['success']: an unused
    ticket the lookup returns is answered ['failure']. *)
Theorem validateResetKey_nan_validity (config : Config) (key : string) (w : World) :
  RESET_VALIDITY config = nan ->
  fst (validateResetKey config key w) <> Returned (None, status_success)
  /\ (forall entry,
         healthy w ->
         find (by_reset_key key) (resets w) = Some entry ->
         used entry = false ->
         fst (validateResetKey config key w) = Returned (None, status_failure)).
Proof.
  intros Hnan.
  assert (Hnever : forall now d, within_validity config now d = false).
  { intros now d. unfold within_validity. rewrite Hnan. apply leb_nan_right. }
  split.
  - rewrite validateResetKey_run. unfold validateResetKey_cb.
    destruct (match faults w with Some _ :: _ => None | _ => _ end) as [entry |];
      [| discriminate].
    destruct (used entry); [discriminate |]. run. rewrite Hnever. discriminate.
  - intros entry Hh Hfind Hunused.
    rewrite (validateResetKey_found config key w entry Hh Hfind), Hunused, Hnever.
    reflexivity.
Qed.

(** A run of X20: a ticket issued this very millisecond is refused. *)
Lemma validateResetKey_nan_validity_witness :
  let config :=
    mkConfig false "" nan "" "" "" "" "" "" "" "" "" "" "" "" "" Demo.defaults false in
  fst (validateResetKey config "k1" (Demo.world [] [Demo.ticket] 0 []))
  = Returned (None, status_failure).
Proof.
  intros config.
  apply (proj2 (validateResetKey_nan_validity config "k1"
                  (Demo.world [] [Demo.ticket] 0 []) eq_refl) Demo.ticket);
    [constructor | reflexivity | reflexivity].
Defined.

(** X21: a directory user who is already stored gets the stored record.
    With LDAP in use, a successful bind and a working store, when some
    record is stored under the lowercased name, [authenticate] hands that
    record to the callback with a null error and writes nothing,
    however the name was capitalised. *)
Theorem authenticate_ldap_returns_stored (config : Config) (svc : Services)
  (name pass entry : string) (w : World) (u : User) :
  AUTH_USE_LDAP config = true ->
  ldap_bind svc name pass = inr entry ->
  healthy w ->
  find (by_username (toLowerCase name)) (users w) = Some u ->
  fst (authenticate config svc name pass w) = Returned (None, Some u)
  /\ same_store w (snd (authenticate config svc name pass w)).
Proof.
  intros Hcfg Hbind Hh Hfind. unfold same_store.
  ldap_run. rewrite Hcfg. run. rewrite Hbind. cbn.
  destruct w as [us rs fbs nid ck fs tr]; unfold healthy in *; cbn in *.
  destruct fs as [| [e |] [| [e' |] fs]]; cbn; rewrite ?Hfind; cbn; rewrite ?Hfind;
    try (now unhealthy); repeat split.
Qed.

(** A run of X21: ["ALICE"] binds and is handed alice's record. *)
Lemma authenticate_ldap_returns_stored_witness :
  fst (authenticate (Demo.config true) Demo.svc "ALICE" "secret" (Scenario.store []))
  = Returned (None, Some Demo.alice).
Proof.
  apply (authenticate_ldap_returns_stored (Demo.config true) Demo.svc "ALICE" "secret"
           "cn=ALICE" (Scenario.store []) Demo.alice eq_refl eq_refl (Forall_nil _) eq_refl).
Defined.
